(** * PromptDeck backend: the PostgreSQL data-access object

    A shallow embedding of [class PostgresDAO] (the parameterised query
    builders, the query executor and the transaction wrapper) together with
    the properties its specification states about it.

    Layout of the development:
    - [Js]       JavaScript values, objects in key-iteration order, errors;
    - [Sql]      statement text as template fragments with [$n] holes;
    - [Build]    the statement/parameter builders of the CRUD helpers;
    - [Runtime]  the connection pool, the database session model, the
                 exception monad, and the effectful DAO methods;
    - [TestDb]   a small concrete database on which the DAO can be run;
    - [Shape], [Observe]  the clauses of the generated statements and the
                 readings of a trace that the statements below speak about;
    - [Admin]    the start-up check and the introspection methods of the DAO;
    - [Ai]       the chat-completion client and the greeting endpoint;
    - the lemmas and the properties of the specification, at the end. *)

From Stdlib Require Import String Ascii List Arith Lia ZArith Bool DecimalString.
Import ListNotations.
Open Scope string_scope.
Open Scope list_scope.
Open Scope nat_scope.

(* ===================================================================== *)
(** ** JavaScript data *)
(* ===================================================================== *)

Module Js.

(** The values the DAO binds as statement parameters.  Numbers are the
    integers ([limit], [offset] and row data in the callers); [NaN] and
    fractions are outside the model. *)
Inductive value : Type :=
| VUndefined
| VNull
| VBool (b : bool)
| VNum (n : Z)
| VStr (s : string).

(** [if (v)]: the ToBoolean conversion. *)
Definition truthy (v : value) : bool :=
  match v with
  | VUndefined => false
  | VNull => false
  | VBool b => b
  | VNum n => negb (Z.eqb n 0)
  | VStr s => negb (String.eqb s "")
  end.

(** A plain object used as a mapping: its own enumerable string keys with
    their values, listed in the order [Object.keys] enumerates them. *)
Definition object : Type := list (string * value).

Definition Object_keys (o : object) : list string := map fst o.
Definition Object_values (o : object) : list value := map snd o.

(** [o[key]]: the value of the first (only) entry named [key], and
    [undefined] when there is none. *)
Fixpoint get (o : object) (key : string) : value :=
  match o with
  | [] => VUndefined
  | (k, v) :: rest => if String.eqb k key then v else get rest key
  end.

(** The keys of an object are pairwise distinct. *)
Definition well_formed (o : object) : Prop := NoDup (Object_keys o).

(** What [rows[0]] or a [Object|null] return value can be. *)
Inductive ref : Type :=
| Row (r : object)
| Null
| Undefined.

(** [arr[i]] on an array of rows. *)
Definition index (rows : list object) (i : nat) : ref :=
  match nth_error rows i with
  | Some r => Row r
  | None => Undefined
  end.

(** Thrown values.  [Error] is [new Error(message)] raised by the DAO's own
    precondition checks (the specification's ValidationError); the other two
    come from the driver: a statement the server or the connection failed,
    and a pool that handed out no client in time. *)
Inductive exn : Type :=
| Error (message : string)
| DriverError (message : string)
| PoolTimeout (message : string).

Definition message (e : exn) : string :=
  match e with
  | Error m => m
  | DriverError m => m
  | PoolTimeout m => m
  end.

Definition is_validation_error (e : exn) : bool :=
  match e with
  | Error _ => true
  | _ => false
  end.

End Js.
Import Js.

(* ===================================================================== *)
(** ** Statement text *)
(* ===================================================================== *)

Module Sql.

(** A template literal is a sequence of fragments: literal text, and the
    placeholder [`$${paramIndex}`]. *)
Inductive frag : Type :=
| Lit (s : string)
| Ph (n : nat).

Definition sql : Type := list frag.

Definition nat_to_string (n : nat) : string :=
  NilEmpty.string_of_uint (Nat.to_uint n).

Definition render_frag (f : frag) : string :=
  match f with
  | Lit s => s
  | Ph n => "$" ++ nat_to_string n
  end.

(** The string handed to the driver. *)
Fixpoint render (q : sql) : string :=
  match q with
  | [] => ""
  | f :: rest => render_frag f ++ render rest
  end.

(** The placeholders of a statement, in the order they are emitted. *)
Fixpoint placeholders (q : sql) : list nat :=
  match q with
  | [] => []
  | Lit _ :: rest => placeholders rest
  | Ph n :: rest => n :: placeholders rest
  end.

(** [parts.join(sep)] on an array of template results. *)
Fixpoint join (sep : string) (parts : list sql) : sql :=
  match parts with
  | [] => []
  | [p] => p
  | p :: rest => p ++ Lit sep :: join sep rest
  end.

(** [names.join(sep)] on an array of plain strings. *)
Definition join_names (sep : string) (names : list string) : string :=
  String.concat sep names.

Definition newline : string := String (ascii_of_nat 10) "".

Definition is_space (c : ascii) : bool :=
  orb (Ascii.eqb c " "%char) (Ascii.eqb c (ascii_of_nat 10)).

(** The SQL words of a statement text: maximal runs of non-blank
    characters.  Two texts with the same words differ only in layout. *)
Fixpoint words_from (cur : string) (s : string) : list string :=
  match s with
  | EmptyString => if String.eqb cur "" then [] else [cur]
  | String c rest =>
      if is_space c
      then (if String.eqb cur "" then words_from "" rest
            else cur :: words_from "" rest)
      else words_from (cur ++ String c "") rest
  end.

Definition words (s : string) : list string := words_from "" s.

(** What the driver binds: placeholder [$n] takes the [n]-th supplied
    parameter (counting from one). *)
Definition binding (q : sql) (params : list value) : list (option value) :=
  map (fun n => nth_error params (n - 1)) (placeholders q).

End Sql.
Import Sql.

(* ===================================================================== *)
(** ** The statement builders of the CRUD helpers *)
(* ===================================================================== *)

Module Build.

(** The [options] argument of [getAllRows]; [None] is an absent field. *)
Record options : Type := mkOptions {
  where_ : option object;
  orderBy : option string;
  limit : value;
  offset : value;
  select : option (list string)
}.

Definition no_options : options :=
  mkOptions None None VUndefined VUndefined None.

(** A parameter default: [x = d] in a parameter list or a destructuring. *)
Definition default {A : Type} (d : A) (x : option A) : A :=
  match x with
  | Some a => a
  | None => d
  end.

(** [Object.keys(where).map(key => { params.push(where[key]);
      return `${key} = $${paramIndex++}`; })]
    with the two mutated locals threaded through. *)
Fixpoint whereConditions (where_ : object) (keys : list string)
         (params : list value) (paramIndex : nat)
  : list sql * list value * nat :=
  match keys with
  | [] => ([], params, paramIndex)
  | key :: rest =>
      let params := params ++ [get where_ key] in
      let cond := [Lit key; Lit " = "; Ph paramIndex] in
      let '(conds, params, paramIndex) :=
        whereConditions where_ rest params (S paramIndex) in
      (cond :: conds, params, paramIndex)
  end.

(** [getAllRows], up to the call of [runQuery]. *)
Definition getAllRows_build (tableName : string) (opts : options)
  : sql * list value :=
  let where_ := default [] (where_ opts) in
  let select := default ["*"] (select opts) in
  let query := [Lit ("SELECT " ++ join_names ", " select ++ " FROM " ++ tableName)] in
  let params := [] in
  let paramIndex := 1 in
  let '(query, params, paramIndex) :=
    if 0 <? length (Object_keys where_)
    then
      let '(conds, params, paramIndex) :=
        whereConditions where_ (Object_keys where_) params paramIndex in
      (query ++ Lit " WHERE " :: join " AND " conds, params, paramIndex)
    else (query, params, paramIndex) in
  let query :=
    match orderBy opts with
    | Some o => if truthy (VStr o) then query ++ [Lit (" ORDER BY " ++ o)] else query
    | None => query
    end in
  let '(query, params, paramIndex) :=
    if truthy (limit opts)
    then (query ++ [Lit " LIMIT "; Ph paramIndex], params ++ [limit opts], S paramIndex)
    else (query, params, paramIndex) in
  let '(query, params, paramIndex) :=
    if truthy (offset opts)
    then (query ++ [Lit " OFFSET "; Ph paramIndex], params ++ [offset opts], S paramIndex)
    else (query, params, paramIndex) in
  (query, params).

(** The indentation of the multi-line template literals. *)
Definition indent6 : string := "      ".
Definition indent4 : string := "    ".

(** [keys.map((_, index) => `$${index + 1}`)]. *)
Fixpoint indexed_placeholders {A : Type} (keys : list A) (index : nat) : list sql :=
  match keys with
  | [] => []
  | _ :: rest => [Ph (index + 1)] :: indexed_placeholders rest (S index)
  end.

(** [insertRow], up to the call of [runQuery]. *)
Definition insertRow_build (tableName : string) (data : object)
           (returning : list string) : sql * list value :=
  let keys := Object_keys data in
  let values := Object_values data in
  let placeholders := indexed_placeholders keys 0 in
  let query :=
    Lit (newline ++ indent6 ++ "INSERT INTO " ++ tableName
           ++ " (" ++ join_names ", " keys ++ ")"
           ++ newline ++ indent6 ++ "VALUES (")
    :: join ", " placeholders
    ++ [Lit (")" ++ newline ++ indent6 ++ "RETURNING "
               ++ join_names ", " returning ++ newline ++ indent4)] in
  (query, values).

(** [keys.map(() => `$${paramIndex++}`)]. *)
Fixpoint rowPlaceholders {A : Type} (keys : list A) (paramIndex : nat)
  : list sql * nat :=
  match keys with
  | [] => ([], paramIndex)
  | _ :: rest =>
      let '(phs, next) := rowPlaceholders rest (S paramIndex) in
      ([Ph paramIndex] :: phs, next)
  end.

(** [keys.forEach(key => values.push(data[key]))]. *)
Fixpoint pushValues (data : object) (keys : list string) (values : list value)
  : list value :=
  match keys with
  | [] => values
  | key :: rest => pushValues data rest (values ++ [get data key])
  end.

(** The [dataArray.forEach] loop of [multiInsert]. *)
Fixpoint multiInsert_rows (keys : list string) (dataArray : list object)
         (values : list value) (placeholders : list sql) (paramIndex : nat)
  : list value * list sql * nat :=
  match dataArray with
  | [] => (values, placeholders, paramIndex)
  | data :: rest =>
      let '(rowPhs, paramIndex) := rowPlaceholders keys paramIndex in
      let placeholders :=
        placeholders ++ [Lit "(" :: join ", " rowPhs ++ [Lit ")"]] in
      let values := pushValues data keys values in
      multiInsert_rows keys rest values placeholders paramIndex
  end.

(** [multiInsert], up to the call of [runQuery]. *)
Definition multiInsert_build (tableName : string) (dataArray : list object)
           (returning : list string) : exn + sql * list value :=
  match dataArray with
  | [] => inl (Error "Data array must be a non-empty array")
  | first :: _ =>
      let keys := Object_keys first in
      let '(values, placeholders, _) :=
        multiInsert_rows keys dataArray [] [] 1 in
      let query :=
        Lit (newline ++ indent6 ++ "INSERT INTO " ++ tableName
               ++ " (" ++ join_names ", " keys ++ ")"
               ++ newline ++ indent6 ++ "VALUES ")
        :: join ", " placeholders
        ++ [Lit (newline ++ indent6 ++ "RETURNING "
                   ++ join_names ", " returning ++ newline ++ indent4)] in
      inr (query, values)
  end.

(** [dataKeys.map(key => `${key} = $${paramIndex++}`)]. *)
Fixpoint setClause (dataKeys : list string) (paramIndex : nat)
  : list sql * nat :=
  match dataKeys with
  | [] => ([], paramIndex)
  | key :: rest =>
      let '(sets, next) := setClause rest (S paramIndex) in
      ([Lit key; Lit " = "; Ph paramIndex] :: sets, next)
  end.

(** [updateRows], up to the call of [runQuery]. *)
Definition updateRows_build (tableName : string) (data : object)
           (where_ : option object) (returning : list string)
  : sql * list value :=
  let where_ := default [] where_ in
  let dataKeys := Object_keys data in
  let dataValues := Object_values data in
  let paramIndex := 1 in
  let '(sets, paramIndex) := setClause dataKeys paramIndex in
  let query := Lit ("UPDATE " ++ tableName ++ " SET ") :: join ", " sets in
  let params := dataValues in
  let '(query, params, paramIndex) :=
    if 0 <? length (Object_keys where_)
    then
      let '(conds, params, paramIndex) :=
        whereConditions where_ (Object_keys where_) params paramIndex in
      (query ++ Lit " WHERE " :: join " AND " conds, params, paramIndex)
    else (query, params, paramIndex) in
  let query := query ++ [Lit (" RETURNING " ++ join_names ", " returning)] in
  (query, params).

(** [deleteRows], up to the call of [runQuery]. *)
Definition deleteRows_build (tableName : string) (where_ : option object)
           (returning : list string) : exn + sql * list value :=
  let where_ := default [] where_ in
  if length (Object_keys where_) =? 0
  then inl (Error "DELETE operation requires WHERE conditions for safety")
  else
    let query := [Lit ("DELETE FROM " ++ tableName)] in
    let params := [] in
    let paramIndex := 1 in
    let '(conds, params, paramIndex) :=
      whereConditions where_ (Object_keys where_) params paramIndex in
    let query := query ++ Lit " WHERE " :: join " AND " conds in
    let query := query ++ [Lit (" RETURNING " ++ join_names ", " returning)] in
    inr (query, params).

End Build.
Import Build.

(* ===================================================================== *)
(** ** The pool, the database sessions and the DAO methods *)
(* ===================================================================== *)

Module Runtime.

(** The driver's result object, as far as the DAO reads it. *)
Record QueryResult : Type := mkResult {
  rows : list object;
  rowCount : nat
}.

Definition empty_result : QueryResult := mkResult [] 0.

(** An argument of a console call.  [AElapsed] stands for the line that
    interpolates the measured duration; the number is not modelled. *)
Inductive arg : Type :=
| AStr (s : string)
| AParams (p : list value)
| AElapsed.

(** What an observer of the pool, the wire and the console sees. *)
Inductive event : Type :=
| Connect (client : nat)
| Query (client : nat) (text : string) (params : list value)
| Release (client : nat)
| ConsoleLog (args : list arg)
| ConsoleError (args : list arg).

(** The pool: clients are numbered in the order they are created; a client
    is either checked out or in [idle].  [max] is the configured size. *)
Record Pool : Type := mkPool {
  idle : list nat;
  totalCount : nat;
  max : nat
}.

Definition statement : Type := (string * list value)%type.

(** How a computation ends: [return] or [throw]. *)
Inductive completion (A : Type) : Type :=
| Return (a : A)
| Throw (e : exn).
Arguments Return {A} a.
Arguments Throw {A} e.

Section Database.

(** The database behind the pool: its durable contents and how one data
    statement acts on them.  Sessions and transaction control are
    modelled below; the SQL engine itself is a parameter. *)
Context {store : Type}.
Variable engine : string -> list value -> store -> completion QueryResult * store.

Record World : Type := mkWorld {
  pool : Pool;
  committed : store;
  open_tx : list (nat * list statement);
  faults : list (string * string);
  trace : list event
}.

(** [committed] is what every session sees outside a transaction.
    [open_tx] lists the clients that ran BEGIN with the statements each
    has pending.  [faults] are statement texts the connection fails
    with the given message (a lost connection, a killed backend). *)

Definition M (A : Type) : Type := World -> completion A * World.

Definition ret {A : Type} (a : A) : M A := fun w => (Return a, w).
Definition throw {A : Type} (e : exn) : M A := fun w => (Throw e, w).
Definition bind {A B : Type} (m : M A) (k : A -> M B) : M B :=
  fun w =>
    match m w with
    | (Return a, w') => k a w'
    | (Throw e, w') => (Throw e, w')
    end.

(** [try { body } catch (error) { handler }]. *)
Definition try_catch {A : Type} (body : M A) (handler : exn -> M A) : M A :=
  fun w =>
    match body w with
    | (Throw e, w') => handler e w'
    | r => r
    end.

(** [try { body } finally { fin }]: [fin] always runs, and when it
    throws its error replaces the completion of [body]. *)
Definition try_finally {A : Type} (body : M A) (fin : M unit) : M A :=
  fun w =>
    let '(r, w') := body w in
    match fin w' with
    | (Return _, w'') => (r, w'')
    | (Throw e, w'') => (Throw e, w'')
    end.

Definition emit (ev : event) (w : World) : World :=
  mkWorld (pool w) (committed w) (open_tx w) (faults w) (trace w ++ [ev]).

Definition set_pool (p : Pool) (w : World) : World :=
  mkWorld p (committed w) (open_tx w) (faults w) (trace w).

Definition set_committed (s : store) (w : World) : World :=
  mkWorld (pool w) s (open_tx w) (faults w) (trace w).

Definition set_open_tx (t : list (nat * list statement)) (w : World) : World :=
  mkWorld (pool w) (committed w) t (faults w) (trace w).

Definition console_log (args : list arg) : M unit :=
  fun w => (Return tt, emit (ConsoleLog args) w).

Definition console_error (args : list arg) : M unit :=
  fun w => (Return tt, emit (ConsoleError args) w).

(** [pool.connect()]: an idle client if there is one, else a new client
    while the pool is below [max] (the constructor's ['connect'] listener
    logs it), else the wait ends in the acquire timeout. *)
Definition pool_connect : M nat :=
  fun w =>
    let p := pool w in
    match idle p with
    | c :: rest =>
        (Return c, emit (Connect c) (set_pool (mkPool rest (totalCount p) (max p)) w))
    | [] =>
        if totalCount p <? max p
        then
          let c := totalCount p in
          (Return c,
           emit (Connect c)
             (emit (ConsoleLog [AStr "New client connected to PostgreSQL database"])
                (set_pool (mkPool [] (S c) (max p)) w)))
        else (Throw (PoolTimeout "timeout exceeded when trying to connect"), w)
    end.

(** [client.release()]. *)
Definition client_release (client : nat) : M unit :=
  fun w =>
    let p := pool w in
    (Return tt,
     emit (Release client)
       (set_pool (mkPool (client :: idle p) (totalCount p) (max p)) w)).

Fixpoint tx_find (client : nat) (t : list (nat * list statement))
  : option (list statement) :=
  match t with
  | [] => None
  | (c, pending) :: rest =>
      if c =? client then Some pending else tx_find client rest
  end.

Fixpoint tx_remove (client : nat) (t : list (nat * list statement))
  : list (nat * list statement) :=
  match t with
  | [] => []
  | (c, pending) :: rest =>
      if c =? client then tx_remove client rest
      else (c, pending) :: tx_remove client rest
  end.

Definition tx_set (client : nat) (pending : list statement)
           (t : list (nat * list statement)) : list (nat * list statement) :=
  (client, pending) :: tx_remove client t.

Fixpoint fault_of (text : string) (f : list (string * string)) : option string :=
  match f with
  | [] => None
  | (t, msg) :: rest => if String.eqb t text then Some msg else fault_of text rest
  end.

(** The state a list of statements leaves behind. *)
Definition replay (pending : list statement) (s : store) : store :=
  fold_left (fun s st => snd (engine (fst st) (snd st) s)) pending s.

(** [client.query(text, params)] on a checked-out client.  Outside a
    transaction a data statement takes effect at once (autocommit);
    between BEGIN and COMMIT it stays pending on that client only, and
    ROLLBACK drops what is pending. *)
Definition client_query (client : nat) (text : string) (params : list value)
  : M QueryResult :=
  fun w =>
    let w := emit (Query client text params) w in
    match fault_of text (faults w) with
    | Some msg => (Throw (DriverError msg), w)
    | None =>
        if String.eqb text "BEGIN"
        then (Return empty_result, set_open_tx (tx_set client [] (open_tx w)) w)
        else if String.eqb text "COMMIT"
        then
          match tx_find client (open_tx w) with
          | Some pending =>
              (Return empty_result,
               set_open_tx (tx_remove client (open_tx w))
                 (set_committed (replay pending (committed w)) w))
          | None => (Return empty_result, w)
          end
        else if String.eqb text "ROLLBACK"
        then (Return empty_result, set_open_tx (tx_remove client (open_tx w)) w)
        else
          match tx_find client (open_tx w) with
          | Some pending =>
              match engine text params (replay pending (committed w)) with
              | (Return r, _) =>
                  (Return r,
                   set_open_tx (tx_set client (pending ++ [(text, params)]) (open_tx w)) w)
              | (Throw e, _) => (Throw e, w)
              end
          | None =>
              match engine text params (committed w) with
              | (Return r, s) => (Return r, set_committed s w)
              | (Throw e, _) => (Throw e, w)
              end
          end
    end.

End Database.

Arguments World store : clear implicits.
Arguments M store A : clear implicits.

Declare Scope dao_scope.
Delimit Scope dao_scope with dao.
Notation "x <- m ;; k" := (bind m (fun x => k))
  (at level 61, m at next level, right associativity) : dao_scope.
Notation "m ;; k" := (bind m (fun _ => k))
  (at level 61, right associativity) : dao_scope.
Open Scope dao_scope.

Section DAO.

Context {store : Type}.
Variable engine : string -> list value -> store -> completion QueryResult * store.

(** The object the helpers see as [this]: they reach the database only
    through [this.runQuery]. *)
Record PostgresDAO : Type := mkDAO {
  runQuery_method : string -> list value -> M store QueryResult
}.

(** [text.substring(0, 100) + (text.length > 100 ? '...' : '')]. *)
Definition preview (text : string) : string :=
  let ellipsis := if 100 <? String.length text then "..." else "" in
  (substring 0 100 text ++ ellipsis)%string.

(** [runQuery]: one statement on a client taken from the pool for it. *)
Definition runQuery (text : string) (params : list value) : M store QueryResult :=
  client <- pool_connect ;;
  try_finally
    (try_catch
       (result <- client_query engine client text params ;;
        console_log [AElapsed; AStr (preview text)] ;;
        ret result)
       (fun error =>
          console_error [AStr "❌ Query execution error:"; AStr (message error)] ;;
          console_error [AStr "Query:"; AStr text] ;;
          console_error [AStr "Params:"; AParams params] ;;
          throw error))
    (client_release client).

(** The process-wide instance. *)
Definition defaultPgDao : PostgresDAO := mkDAO runQuery.

Definition getAllRows (this : PostgresDAO) (tableName : string) (opts : options)
  : M store (list object) :=
  let '(query, params) := getAllRows_build tableName opts in
  result <- runQuery_method this (render query) params ;;
  ret (rows result).

Definition getSingleRow (this : PostgresDAO) (tableName : string)
           (where_ : option object) (select : option (list string))
  : M store ref :=
  let where_ := default [] where_ in
  let select := default ["*"] select in
  rows <- getAllRows this tableName
            (mkOptions (Some where_) None (VNum 1) VUndefined (Some select)) ;;
  ret (if 0 <? length rows then index rows 0 else Null).

Definition insertRow (this : PostgresDAO) (tableName : string) (data : object)
           (returning : option (list string)) : M store ref :=
  let '(query, values) :=
    insertRow_build tableName data (default ["*"] returning) in
  result <- runQuery_method this (render query) values ;;
  ret (index (rows result) 0).

Definition multiInsert (this : PostgresDAO) (tableName : string)
           (dataArray : list object) (returning : option (list string))
  : M store (list object) :=
  match multiInsert_build tableName dataArray (default ["*"] returning) with
  | inl e => throw e
  | inr (query, values) =>
      result <- runQuery_method this (render query) values ;;
      ret (rows result)
  end.

Definition updateRows (this : PostgresDAO) (tableName : string) (data : object)
           (where_ : option object) (returning : option (list string))
  : M store (list object) :=
  let '(query, params) :=
    updateRows_build tableName data where_ (default ["*"] returning) in
  result <- runQuery_method this (render query) params ;;
  ret (rows result).

(** An element of [updateArray]. *)
Record updateItem : Type := mkItem {
  item_data : object;
  item_where : option object
}.

(** The [for (const updateItem of updateArray)] loop of [multiUpdate]. *)
Fixpoint multiUpdate_loop (this : PostgresDAO) (tableName : string)
         (updateArray : list updateItem) (returning : option (list string))
         (results : list object) : M store (list object) :=
  match updateArray with
  | [] => ret results
  | item :: rest =>
      updatedRows <- updateRows this tableName (item_data item)
                       (item_where item) returning ;;
      multiUpdate_loop this tableName rest returning (results ++ updatedRows)
  end.

Definition multiUpdate (this : PostgresDAO) (tableName : string)
           (updateArray : list updateItem) (returning : option (list string))
  : M store (list object) :=
  if length updateArray =? 0
  then throw (Error "Update array must be a non-empty array")
  else
    client <- pool_connect ;;
    try_finally
      (try_catch
         (client_query engine client "BEGIN" [] ;;
          results <- multiUpdate_loop this tableName updateArray returning [] ;;
          client_query engine client "COMMIT" [] ;;
          ret results)
         (fun error =>
            client_query engine client "ROLLBACK" [] ;;
            throw error))
      (client_release client).

Definition deleteRows (this : PostgresDAO) (tableName : string)
           (where_ : option object) (returning : option (list string))
  : M store (list object) :=
  match deleteRows_build tableName where_ (default ["*"] returning) with
  | inl e => throw e
  | inr (query, params) =>
      result <- runQuery_method this (render query) params ;;
      ret (rows result)
  end.

(** [transaction]: the callback is applied to [this]. *)
Definition transaction {A : Type} (this : PostgresDAO)
           (operations : PostgresDAO -> M store A) : M store A :=
  client <- pool_connect ;;
  try_finally
    (try_catch
       (client_query engine client "BEGIN" [] ;;
        result <- operations this ;;
        client_query engine client "COMMIT" [] ;;
        ret result)
       (fun error =>
          client_query engine client "ROLLBACK" [] ;;
          console_error [AStr "❌ Transaction rolled back:"; AStr (message error)] ;;
          throw error))
    (client_release client).

End DAO.

End Runtime.
Import Runtime.

(* ===================================================================== *)
(** ** A concrete database for running the DAO *)
(* ===================================================================== *)

Module TestDb.

(** The durable contents are the data statements applied so far, oldest
    first: a write is visible exactly when it is in this list.  Every
    column is NOT NULL, so a statement binding [null] is rejected. *)
Definition store : Type := list statement.

Definition binds_null (params : list value) : bool :=
  existsb (fun v => match v with VNull => true | _ => false end) params.

Definition engine (text : string) (params : list value) (s : store)
  : completion QueryResult * store :=
  if binds_null params
  then (Throw (DriverError "null value violates not-null constraint"), s)
  else (Return empty_result, s ++ [(text, params)]).

(** An engine that also answers every statement with the given rows. *)
Definition answering (answer : list object) (text : string)
           (params : list value) (s : store) : completion QueryResult * store :=
  (Return (mkResult answer (length answer)), s ++ [(text, params)]).

(** A pool of the default size with no client created yet, an empty
    database, healthy connections. *)
Definition fresh : World store :=
  mkWorld (mkPool [] 0 20) [] [] [] [].

(** The same, on a connection that fails the listed statements. *)
Definition faulty (f : list (string * string)) : World store :=
  mkWorld (mkPool [] 0 20) [] [] f [].

Definition boom : exn := Error "boom".

End TestDb.


(* ===================================================================== *)
(** ** The clauses of the generated statements *)
(* ===================================================================== *)

Module Shape.

(** [k1 = $s], [k2 = $s+1], ...: one condition per key. *)
Definition equalities (keys : list string) (start : nat) : list sql :=
  map (fun ki => [Lit (fst ki); Lit " = "; Ph (snd ki)])
      (combine keys (seq start (length keys))).

(** The clauses of the generated SELECT, written after the statement
    grammar [SELECT <columns> FROM <table> [WHERE k1=$1 AND k2=$2 ...]
    [ORDER BY <orderBy>] [LIMIT $n] [OFFSET $n]]. *)
Definition select_from (tableName : string) (opts : options) : frag :=
  Lit ("SELECT " ++ join_names ", " (default ["*"] (select opts))
         ++ " FROM " ++ tableName).

Definition where_clause (w : object) (start : nat) : sql :=
  match w with
  | [] => []
  | _ :: _ => Lit " WHERE " :: join " AND " (equalities (Object_keys w) start)
  end.

Definition order_by_clause (opts : options) : sql :=
  match orderBy opts with
  | Some o => if String.eqb o "" then [] else [Lit (" ORDER BY " ++ o)]
  | None => []
  end.

Definition limit_clause (opts : options) (n : nat) : sql :=
  if truthy (limit opts) then [Lit " LIMIT "; Ph n] else [].

Definition offset_clause (opts : options) (n : nat) : sql :=
  if truthy (offset opts) then [Lit " OFFSET "; Ph n] else [].

(** The parameter a LIMIT or OFFSET argument contributes. *)
Definition bound (v : value) : list value := if truthy v then [v] else [].

Definition paging (opts : options) (start : nat) : sql :=
  order_by_clause opts ++ limit_clause opts start
    ++ offset_clause opts (start + length (bound (limit opts))).

(** [$s, $s+1, ...]: one bare placeholder per key. *)
Definition holes {A : Type} (keys : list A) (start : nat) : list sql :=
  map (fun i => [Ph i]) (seq start (length keys)).

(** One parenthesised VALUES tuple. *)
Definition row_tuple {A : Type} (keys : list A) (start : nat) : sql :=
  Lit "(" :: join ", " (holes keys start) ++ [Lit ")"].

(** [n] consecutive VALUES tuples. *)
Fixpoint tuples {A : Type} (keys : list A) (start : nat) (n : nat) : list sql :=
  match n with
  | 0 => []
  | S n' => row_tuple keys start :: tuples keys (start + length keys) n'
  end.

(** The RETURNING projection of UPDATE and DELETE. *)
Definition returning_clause (returning : list string) : sql :=
  [Lit (" RETURNING " ++ join_names ", " returning)].

(** The head and the tail of the multi-line INSERT template. *)
Definition insert_head (tableName : string) (keys : list string) (opening : string)
  : frag :=
  Lit (newline ++ indent6 ++ "INSERT INTO " ++ tableName
         ++ " (" ++ join_names ", " keys ++ ")"
         ++ newline ++ indent6 ++ "VALUES " ++ opening).

Definition insert_tail (returning : list string) (closing : string) : frag :=
  Lit (closing ++ newline ++ indent6 ++ "RETURNING "
         ++ join_names ", " returning ++ newline ++ indent4).

End Shape.
Import Shape.

(* ===================================================================== *)
(** ** Reading a trace *)
(* ===================================================================== *)

Module Observe.

(** The statements that reached the database, with the client each ran
    on, in order. *)
Fixpoint statements (tr : list event) : list (nat * string * list value) :=
  match tr with
  | [] => []
  | Query client text params :: rest => (client, text, params) :: statements rest
  | _ :: rest => statements rest
  end.

(** The console lines written at error level. *)
Fixpoint errors_logged (tr : list event) : list (list arg) :=
  match tr with
  | [] => []
  | ConsoleError args :: rest => args :: errors_logged rest
  | _ :: rest => errors_logged rest
  end.

(** Idle clients are distinct and were all created by the pool. *)
Definition pool_wf (p : Pool) : Prop :=
  NoDup (idle p) /\ Forall (fun c => c < totalCount p) (idle p).

(** The text [insertRow] generates for the columns [keys]. *)
Definition insert_text (tableName : string) (keys : list string)
           (returning : list string) : string :=
  render (insert_head tableName keys "("
            :: join ", " (holes keys 1) ++ [insert_tail returning ")"]).

End Observe.
Import Observe.

(* ===================================================================== *)
(** ** Start-up and introspection methods of the DAO *)
(* ===================================================================== *)

Module Admin.

(** What these methods can throw: an error of the pool or the driver, or
    the [TypeError] of reading a property of a missing value (the message
    is the one Node prints). *)
Inductive thrown : Type :=
| Raised (e : exn)
| TypeError (message : string).

Definition thrown_message (t : thrown) : string :=
  match t with
  | Raised e => message e
  | TypeError m => m
  end.

(** [`${v}`]: the string conversion of a template literal. *)
Definition to_string (v : value) : string :=
  match v with
  | VUndefined => "undefined"
  | VNull => "null"
  | VBool true => "true"
  | VBool false => "false"
  | VNum n => NilEmpty.string_of_int (Z.to_int n)
  | VStr s => s
  end.

(** [s.split(' ')]. *)
Fixpoint split_from (cur : string) (s : string) : list string :=
  match s with
  | EmptyString => [cur]
  | String c rest =>
      if Ascii.eqb c " "%char then cur :: split_from "" rest
      else split_from (cur ++ String c "") rest
  end.

Definition split_space (s : string) : list string := split_from "" s.

(** [`${parts[i]}`]. *)
Definition element (parts : list string) (i : nat) : string :=
  match nth_error parts i with
  | Some part => part
  | None => "undefined"
  end.

Definition initialize_text : string :=
  "SELECT NOW() as current_time, version() as version".



Section Methods.

Context {store : Type}.
Variable engine : string -> list value -> store -> completion QueryResult * store.

(** The DAO instance: its [isConnected] flag beside the world its pool
    lives in. *)
Record Instance : Type := mkInstance {
  isConnected : bool;
  world : World store
}.

(** The [try] block of [initialize]. *)
Definition initialize_try (w : World store) : (thrown + bool) * World store :=
  match pool_connect w with
  | (Throw e, w) => (inl (Raised e), w)
  | (Return client, w) =>
      match client_query engine client initialize_text [] w with
      | (Throw e, w) => (inl (Raised e), w)
      | (Return result, w) =>
          let w := emit (ConsoleLog [AStr "✅ Database connected successfully"]) w in
          match index (rows result) 0 with
          | Row row =>
              let w :=
                emit (ConsoleLog
                        [AStr ("📅 Server time: " ++ to_string (get row "current_time"))])
                     w in
              match get row "version" with
              | VStr version =>
                  let parts := split_space version in
                  let w :=
                    emit (ConsoleLog
                            [AStr ("🗄️  PostgreSQL version: " ++ element parts 0
                                     ++ " " ++ element parts 1)])
                         w in
                  (inr true, snd (client_release client w))
              | VUndefined =>
                  (inl (TypeError "Cannot read properties of undefined (reading 'split')"), w)
              | VNull =>
                  (inl (TypeError "Cannot read properties of null (reading 'split')"), w)
              | _ =>
                  (inl (TypeError "result.rows[0].version.split is not a function"), w)
              end
          | _ =>
              (inl (TypeError
                      "Cannot read properties of undefined (reading 'current_time')"), w)
          end
      end
  end.

(** [initialize]: the flag is set on success and cleared in the [catch]. *)
Definition initialize (this : Instance) : (thrown + bool) * Instance :=
  match initialize_try (world this) with
  | (inr ok, w) => (inr ok, mkInstance true w)
  | (inl error, w) =>
      let w :=
        emit (ConsoleError [AStr "❌ Database connection failed:";
                            AStr (thrown_message error)]) w in
      (inl error, mkInstance false w)
  end.



End Methods.

End Admin.
Import Admin.

(* ===================================================================== *)
(** ** The chat-completion client and the greeting endpoint *)
(* ===================================================================== *)

Module Ai.

(** An error as the client reads it: its [message] and, when it carries a
    truthy [response.data], the [error?.message] found there ([None] inside
    when that is undefined). *)
Record error : Type := mkError {
  message : string;
  response_data : option (option string)
}.

(** [s || d] on a string or undefined. *)
Definition or_else (s : option string) (d : string) : string :=
  match s with
  | Some x => if String.eqb x "" then d else x
  | None => d
  end.

(** [_handleError]. *)
Definition _handleError (e : error) : error :=
  match response_data e with
  | Some data_message =>
      mkError ("OpenAI API Error: " ++ or_else data_message "Unknown error") None
  | None => e
  end.

Record chat_message : Type := mkMessage {
  role : string;
  content : string
}.

(** The [options] of [streamChatCompletion], passed on to the API with
    [stream: true] added. *)
Record stream_options : Type := mkStreamOptions {
  s_model : option string;
  s_messages : option (list chat_message)
}.

(** The fields of [options] that [chatCompletion] reads. *)
Record chat_options : Type := mkChatOptions {
  model : option string;
  maxTokens : option nat
}.

(** [requestParams]; [max_completion_tokens] is [None] when the key is
    not set. *)
Record request : Type := mkRequest {
  req_model : string;
  req_messages : list chat_message;
  max_completion_tokens : option nat
}.

(** What the client does that can be seen from outside. *)
Inductive event : Type :=
| Create (r : request)
| CreateStream (model : option string) (messages : option (list chat_message))
| Log (line : string)
| LogError (label : string) (detail : string)
| LogThrown (label : string) (e : error).

(** One streamed chunk: [choices[i].delta.content], each level optional. *)
Record chunk : Type := mkChunk {
  choices : list (option (option string))
}.

(** [chunk.choices[0]?.delta?.content || '']. *)
Definition chunk_content (c : chunk) : string :=
  match choices c with
  | Some (Some text) :: _ => text
  | _ => ""
  end.

(** A call of [onChunk(content, fullContent, chunk)]. *)
Definition call : Type := (string * string * chunk)%type.

(** The [for await (const chunk of stream)] loop of
    [streamChatCompletion]; [onChunk] says whether a callback was given. *)
Fixpoint stream_loop (onChunk : bool) (stream : list chunk)
         (fullContent : string) (calls : list call) : string * list call :=
  match stream with
  | [] => (fullContent, calls)
  | c :: rest =>
      let content := chunk_content c in
      if negb (String.eqb content "")
      then
        let fullContent := (fullContent ++ content)%string in
        let calls := if onChunk then calls ++ [(content, fullContent, c)] else calls in
        stream_loop onChunk rest fullContent calls
      else stream_loop onChunk rest fullContent calls
  end.

(** The successive values of [fullContent] as the pieces [contents] are
    appended to [fullContent]. *)
Fixpoint running (fullContent : string) (contents : list string) : list string :=
  match contents with
  | [] => []
  | content :: rest =>
      (fullContent ++ content)%string :: running (fullContent ++ content)%string rest
  end.

(** The pieces of text a stream carries: the non-empty chunk contents. *)
Definition pieces (stream : list chunk) : list string :=
  filter (fun content => negb (String.eqb content "")) (map chunk_content stream).

Section Client.

(** The remote API: the response type, the token count it reports
    ([response.usage?.total_tokens]) and the completion call. *)
Context {response : Type}.
Variable total_tokens : response -> option nat.
Variable create : request -> error + response.

(** The streaming call: the chunks of a stream that runs to its end. *)
Variable create_stream : stream_options -> error + list chunk.

(** Whether the module built its default client (an API key was
    configured); otherwise [defaultOpenAIClient] is [null]. *)
Variable defaultOpenAIClient : bool.

(** [`${response.usage?.total_tokens || 'N/A'}`]. *)
Definition tokens_used (r : response) : string :=
  match total_tokens r with
  | Some n => if n =? 0 then "N/A" else nat_to_string n
  | None => "N/A"
  end.

(** The [try] block of [chatCompletion]; [None] is a [messages] argument
    that is missing or not an array. *)
Definition chatCompletion_try (messages : option (list chat_message))
           (options : chat_options) : list event * (error + response) :=
  match messages with
  | None | Some [] =>
      ([], inl (mkError "Messages array is required and cannot be empty" None))
  | Some messages =>
      let requestParams :=
        mkRequest (or_else (model options) "gpt-5-nano") messages
                  (match maxTokens options with
                   | Some n => if n =? 0 then None else Some n
                   | None => None
                   end) in
      match create requestParams with
      | inl e => ([Create requestParams], inl e)
      | inr r =>
          ([Create requestParams;
            Log ("✅ Chat Completion Success - Tokens used: " ++ tokens_used r)],
           inr r)
      end
  end.

Definition chatCompletion (messages : option (list chat_message))
           (options : chat_options) : list event * (error + response) :=
  match chatCompletion_try messages options with
  | (events, inl e) =>
      (events ++ [LogError "❌ Chat Completion Error:" (message e)],
       inl (_handleError e))
  | done => done
  end.

(** [streamChatCompletion]; the result is the [content] of the object it
    returns, beside the calls made to [onChunk]. *)
Definition streamChatCompletion (options : stream_options) (onChunk : bool)
  : list event * list call * (error + string) :=
  let start :=
    [Log ("🌊 Starting streaming chat completion - Model: "
            ++ or_else (s_model options) "gpt-3.5-turbo");
     CreateStream (s_model options) (s_messages options)] in
  match create_stream options with
  | inl e =>
      (start ++ [LogError "❌ Streaming Chat Error:" (message e)], [],
       inl (_handleError e))
  | inr stream =>
      let '(fullContent, calls) := stream_loop onChunk stream "" [] in
      (start ++ [Log ("✅ Streaming completed - Total content length: "
                        ++ nat_to_string (String.length fullContent))],
       calls, inr fullContent)
  end.

(** [getGreeting] of the test service. *)
Definition getGreeting (name : option string) : list event * (error + response) :=
  let greetingName := or_else name "World" in
  if defaultOpenAIClient
  then
    chatCompletion
      (Some [mkMessage "system" "You are a friendly assistant that provides greetings.";
             mkMessage "user" ("Generate a greeting message for " ++ greetingName ++ ".")])
      (mkChatOptions (Some "gpt-5-nano") None)
  else
    ([], inl (mkError "Cannot read properties of null (reading 'chatCompletion')" None)).

(** The answer of the [/greeting] route: status and body. *)
Inductive reply : Type :=
| Json (status : nat) (body : response)
| JsonError (status : nat) (error_text : string).

(** The handler of [GET /greeting]. *)
Definition greeting_route (name : option string) : list event * reply :=
  match getGreeting name with
  | (events, inr greeting) => (events, Json 200 greeting)
  | (events, inl e) =>
      (events ++ [LogThrown "Error in /test/greeting:" e],
       JsonError 500 "internal server error")
  end.

End Client.

End Ai.

(* ===================================================================== *)
(** ** Facts about statement text *)
(* ===================================================================== *)

Section SqlFacts.

Lemma string_app_assoc (a b c : string) :
  ((a ++ b) ++ c = a ++ (b ++ c))%string.
Proof.
  induction a as [|ch a IH]; simpl; [reflexivity | now rewrite IH].
Qed.

Lemma string_app_nil_r (a : string) : (a ++ "" = a)%string.
Proof.
  induction a as [|ch a IH]; simpl; [reflexivity | now rewrite IH].
Qed.

Lemma render_app (p q : sql) :
  render (p ++ q) = (render p ++ render q)%string.
Proof.
  induction p as [|f p IH]; simpl; [reflexivity|].
  now rewrite IH, string_app_assoc.
Qed.

Lemma placeholders_app (p q : sql) :
  placeholders (p ++ q) = placeholders p ++ placeholders q.
Proof.
  induction p as [|[s|n] p IH]; simpl; [reflexivity| exact IH | now rewrite IH].
Qed.

Lemma join_cons (sep : string) (p : sql) (rest : list sql) :
  rest <> [] -> join sep (p :: rest) = p ++ Lit sep :: join sep rest.
Proof. destruct rest; [congruence | reflexivity]. Qed.

Lemma placeholders_join (sep : string) (parts : list sql) :
  placeholders (join sep parts) = concat (map placeholders parts).
Proof.
  induction parts as [|p [|p' rest] IH].
  - reflexivity.
  - simpl. now rewrite app_nil_r.
  - change (join sep (p :: p' :: rest)) with (p ++ Lit sep :: join sep (p' :: rest)).
    rewrite placeholders_app. cbn [placeholders]. rewrite IH. reflexivity.
Qed.

Lemma render_join (sep : string) (parts : list sql) :
  render (join sep parts) = String.concat sep (map render parts).
Proof.
  induction parts as [|p [|p' rest] IH].
  - reflexivity.
  - reflexivity.
  - change (join sep (p :: p' :: rest)) with (p ++ Lit sep :: join sep (p' :: rest)).
    rewrite render_app. cbn [render render_frag]. rewrite IH. reflexivity.
Qed.

Lemma join_app_last (sep : string) (parts : list sql) (p : sql) :
  parts <> [] -> join sep (parts ++ [p]) = join sep parts ++ Lit sep :: p.
Proof.
  induction parts as [|a [|b rest] IH]; intros Hne.
  - congruence.
  - reflexivity.
  - change (join sep ((a :: b :: rest) ++ [p]))
      with (a ++ Lit sep :: join sep ((b :: rest) ++ [p])).
    rewrite IH by discriminate.
    change (join sep (a :: b :: rest)) with (a ++ Lit sep :: join sep (b :: rest)).
    now rewrite <- app_assoc.
Qed.

(** With placeholders [1..n] in a statement and [n] parameters, the driver
    binds the i-th placeholder to the i-th parameter. *)
Lemma binding_sequential (q : sql) (params : list value) :
  placeholders q = seq 1 (length params) ->
  binding q params = map Some params.
Proof.
  unfold binding. intros ->.
  apply nth_error_ext. intros i.
  rewrite !nth_error_map, nth_error_seq.
  destruct (Nat.ltb_spec i (length params)) as [Hlt|Hge]; simpl.
  - rewrite Nat.sub_0_r.
    destruct (nth_error params i) eqn:E; [reflexivity|].
    apply nth_error_None in E. lia.
  - destruct (nth_error params i) eqn:E; [|reflexivity].
    assert (nth_error params i <> None) as Hs by congruence.
    apply nth_error_Some in Hs. lia.
Qed.

End SqlFacts.

Example insertRow_text :
  render (fst (insertRow_build "table" [("a", VNum 1); ("b", VNum 2)] ["*"]))
  = (newline ++ "      INSERT INTO table (a, b)" ++ newline
     ++ "      VALUES ($1, $2)" ++ newline ++ "      RETURNING *" ++ newline
     ++ "    ")%string.
Proof. reflexivity. Qed.

Example getAllRows_text :
  let '(q, p) := getAllRows_build "users"
        (mkOptions (Some [("id", VNum 7); ("name", VStr "x")]) (Some "id DESC")
                   (VNum 10) (VNum 20) None) in
  render q = "SELECT * FROM users WHERE id = $1 AND name = $2 ORDER BY id DESC LIMIT $3 OFFSET $4"
  /\ p = [VNum 7; VStr "x"; VNum 10; VNum 20].
Proof. split; reflexivity. Qed.

(* ===================================================================== *)
(** ** Facts about the builders *)
(* ===================================================================== *)

Section BuildFacts.

Lemma length_keys (o : object) : length (Object_keys o) = length o.
Proof. apply length_map. Qed.

Lemma length_values (o : object) : length (Object_values o) = length o.
Proof. apply length_map. Qed.

Lemma get_own_values (o : object) :
  well_formed o -> map (get o) (Object_keys o) = Object_values o.
Proof.
  unfold well_formed, Object_keys, Object_values.
  induction o as [|[k v] o IH]; simpl; intros Hnd; [reflexivity|].
  inversion Hnd as [|? ? Hnotin Hnd']; subst.
  rewrite String.eqb_refl. f_equal.
  rewrite <- IH by assumption.
  apply map_ext_in. intros k' Hin.
  destruct (String.eqb_spec k k') as [->|_]; [contradiction | reflexivity].
Qed.

Lemma whereConditions_spec (w : object) (keys : list string)
      (params : list value) (paramIndex : nat) :
  whereConditions w keys params paramIndex
  = (equalities keys paramIndex, params ++ map (get w) keys,
     paramIndex + length keys).
Proof.
  revert params paramIndex.
  induction keys as [|key keys IH]; intros params paramIndex; simpl.
  - now rewrite app_nil_r, Nat.add_0_r.
  - rewrite IH. unfold equalities. simpl.
    rewrite <- app_assoc. simpl.
    now rewrite Nat.add_succ_r.
Qed.

Lemma setClause_spec (dataKeys : list string) (paramIndex : nat) :
  setClause dataKeys paramIndex
  = (equalities dataKeys paramIndex, paramIndex + length dataKeys).
Proof.
  revert paramIndex.
  induction dataKeys as [|key keys IH]; intros paramIndex; simpl.
  - now rewrite Nat.add_0_r.
  - rewrite IH. unfold equalities. simpl. now rewrite Nat.add_succ_r.
Qed.

Lemma placeholders_equalities (keys : list string) (start : nat) :
  concat (map placeholders (equalities keys start)) = seq start (length keys).
Proof.
  unfold equalities. revert start.
  induction keys as [|k keys IH]; intros start; simpl; [reflexivity|].
  now rewrite IH.
Qed.

Lemma length_equalities (keys : list string) (start : nat) :
  length (equalities keys start) = length keys.
Proof.
  unfold equalities.
  now rewrite length_map, length_combine, length_seq, Nat.min_id.
Qed.

Lemma render_equalities (keys : list string) (start : nat) :
  map render (equalities keys start)
  = map (fun ki => (fst ki ++ " = $" ++ nat_to_string (snd ki))%string)
        (combine keys (seq start (length keys))).
Proof.
  unfold equalities. rewrite map_map. apply map_ext.
  intros [k i]. cbn [render render_frag fst snd].
  now rewrite string_app_nil_r.
Qed.

End BuildFacts.

Section ClauseShapes.

Lemma getAllRows_build_shape (tableName : string) (opts : options) :
  let w := default [] (where_ opts) in
  getAllRows_build tableName opts
  = (select_from tableName opts :: where_clause w 1 ++ paging opts (1 + length w),
     map (get w) (Object_keys w) ++ bound (limit opts) ++ bound (offset opts)).
Proof.
  intros w. unfold getAllRows_build, paging, select_from, order_by_clause,
    limit_clause, offset_clause, bound.
  fold w. rewrite whereConditions_spec.
  unfold Object_keys at 1. rewrite length_map.
  destruct w as [|kv w']; cbn [length Nat.ltb Nat.leb where_clause];
    destruct (orderBy opts) as [o|]; cbn [truthy];
      try destruct (String.eqb o ""); cbn [negb];
        destruct (truthy (limit opts)); destruct (truthy (offset opts));
          cbn [length app map Object_keys Nat.add];
          repeat rewrite <- app_assoc; cbn [app];
            rewrite ?app_nil_r, ?Nat.add_0_r, ?Nat.add_1_r;
            try rewrite length_map; reflexivity.
Qed.

Lemma placeholders_where_clause (w : object) (start : nat) :
  placeholders (where_clause w start) = seq start (length w).
Proof.
  destruct w as [|kv w']; [reflexivity|].
  unfold where_clause. cbn [placeholders].
  rewrite placeholders_join, placeholders_equalities.
  unfold Object_keys. now rewrite length_map.
Qed.

Lemma placeholders_paging (opts : options) (start : nat) :
  placeholders (paging opts start)
  = seq start (length (bound (limit opts) ++ bound (offset opts))).
Proof.
  unfold paging, order_by_clause, limit_clause, offset_clause, bound.
  destruct (orderBy opts) as [o|]; try destruct (String.eqb o "");
    destruct (truthy (limit opts)); destruct (truthy (offset opts));
      cbn [app placeholders length seq];
      rewrite ?Nat.add_0_r, ?Nat.add_1_r; reflexivity.
Qed.

Lemma no_where_in_paging (opts : options) (start : nat) :
  ~ In (Lit " WHERE ") (paging opts start).
Proof.
  unfold paging, order_by_clause, limit_clause, offset_clause.
  intros Hin. apply in_app_or in Hin as [Hin|Hin].
  - destruct (orderBy opts) as [o|]; [|contradiction].
    destruct (String.eqb o ""); [contradiction|].
    destruct Hin as [Heq|[]]. inversion Heq.
  - apply in_app_or in Hin as [Hin|Hin].
    + destruct (truthy (limit opts)); [|contradiction].
      destruct Hin as [Heq|[Heq|[]]]; discriminate Heq.
    + destruct (truthy (offset opts)); [|contradiction].
      destruct Hin as [Heq|[Heq|[]]]; discriminate Heq.
Qed.

End ClauseShapes.


Section OtherShapes.

Lemma indexed_placeholders_spec {A : Type} (keys : list A) (index : nat) :
  indexed_placeholders keys index = holes keys (index + 1).
Proof.
  unfold holes. revert index.
  induction keys as [|k keys IH]; intros index; simpl; [reflexivity|].
  rewrite IH. now rewrite Nat.add_succ_l.
Qed.

Lemma rowPlaceholders_spec {A : Type} (keys : list A) (paramIndex : nat) :
  rowPlaceholders keys paramIndex
  = (holes keys paramIndex, paramIndex + length keys).
Proof.
  unfold holes. revert paramIndex.
  induction keys as [|k keys IH]; intros paramIndex; simpl.
  - now rewrite Nat.add_0_r.
  - rewrite IH. now rewrite Nat.add_succ_r.
Qed.

Lemma pushValues_spec (data : object) (keys : list string) (values : list value) :
  pushValues data keys values = values ++ map (get data) keys.
Proof.
  revert values.
  induction keys as [|k keys IH]; intros values; simpl.
  - now rewrite app_nil_r.
  - rewrite IH, <- app_assoc. reflexivity.
Qed.

Lemma placeholders_holes {A : Type} (keys : list A) (start : nat) :
  concat (map placeholders (holes keys start)) = seq start (length keys).
Proof.
  unfold holes. generalize (length keys) as n. intros n. revert start.
  induction n as [|n IH]; intros start; simpl; [reflexivity|].
  now rewrite IH.
Qed.

Lemma placeholders_row_tuple {A : Type} (keys : list A) (start : nat) :
  placeholders (row_tuple keys start) = seq start (length keys).
Proof.
  unfold row_tuple. cbn [placeholders].
  rewrite placeholders_app, placeholders_join, placeholders_holes.
  cbn [placeholders]. now rewrite app_nil_r.
Qed.

Lemma placeholders_tuples {A : Type} (keys : list A) (start n : nat) :
  concat (map placeholders (tuples keys start n)) = seq start (n * length keys).
Proof.
  revert start.
  induction n as [|n IH]; intros start; [reflexivity|].
  cbn [tuples map concat]. rewrite placeholders_row_tuple, IH.
  cbn [Nat.mul]. now rewrite seq_app.
Qed.

Lemma multiInsert_rows_spec (keys : list string) (dataArray : list object)
      (values : list value) (placeholders : list sql) (paramIndex : nat) :
  multiInsert_rows keys dataArray values placeholders paramIndex
  = (values ++ flat_map (fun data => map (get data) keys) dataArray,
     placeholders ++ tuples keys paramIndex (length dataArray),
     paramIndex + length dataArray * length keys).
Proof.
  revert values placeholders paramIndex.
  induction dataArray as [|data rest IH]; intros values phs paramIndex.
  - simpl. now rewrite !app_nil_r, Nat.add_0_r.
  - cbn [multiInsert_rows]. rewrite rowPlaceholders_spec, pushValues_spec, IH.
    cbn [flat_map length tuples Nat.mul].
    rewrite <- !app_assoc. cbn [app].
    now rewrite Nat.add_assoc.
Qed.

Lemma insertRow_build_shape (tableName : string) (data : object)
      (returning : list string) :
  insertRow_build tableName data returning
  = (insert_head tableName (Object_keys data) "("
       :: join ", " (holes (Object_keys data) 1) ++ [insert_tail returning ")"],
     Object_values data).
Proof.
  unfold insertRow_build. rewrite indexed_placeholders_spec.
  unfold insert_head, insert_tail. cbn [Nat.add].
  repeat f_equal; now rewrite ?string_app_assoc.
Qed.

Lemma multiInsert_build_shape (tableName : string) (first : object)
      (others : list object) (returning : list string) :
  multiInsert_build tableName (first :: others) returning
  = inr (insert_head tableName (Object_keys first) ""
           :: join ", " (tuples (Object_keys first) 1 (S (length others)))
           ++ [insert_tail returning ""],
         flat_map (fun data => map (get data) (Object_keys first)) (first :: others)).
Proof.
  unfold multiInsert_build. rewrite multiInsert_rows_spec.
  unfold insert_head, insert_tail. cbn [app length].
  repeat f_equal; now rewrite ?string_app_assoc, ?string_app_nil_r.
Qed.

Lemma updateRows_build_shape (tableName : string) (data : object)
      (w : option object) (returning : list string) :
  updateRows_build tableName data w returning
  = (Lit ("UPDATE " ++ tableName ++ " SET ")
       :: join ", " (equalities (Object_keys data) 1)
       ++ where_clause (default [] w) (1 + length data)
       ++ returning_clause returning,
     Object_values data
       ++ map (get (default [] w)) (Object_keys (default [] w))).
Proof.
  unfold updateRows_build, returning_clause.
  rewrite setClause_spec, whereConditions_spec, !length_keys.
  destruct (default [] w) as [|kv w']; cbn [length Nat.ltb Nat.leb where_clause].
  - cbn [map Object_keys app]. now rewrite app_nil_r.
  - cbn [app]. rewrite <- app_assoc. reflexivity.
Qed.

Lemma deleteRows_build_shape (tableName : string) (w : option object)
      (returning : list string) :
  deleteRows_build tableName w returning
  = match default [] w with
    | [] => inl (Error "DELETE operation requires WHERE conditions for safety")
    | _ :: _ =>
        inr (Lit ("DELETE FROM " ++ tableName)
               :: where_clause (default [] w) 1 ++ returning_clause returning,
             map (get (default [] w)) (Object_keys (default [] w)))
    end.
Proof.
  unfold deleteRows_build, returning_clause.
  destruct (default [] w) as [|kv w'] eqn:E; [reflexivity|].
  cbn [Object_keys map length Nat.eqb].
  change (fst kv :: map fst w') with (Object_keys (kv :: w')).
  rewrite whereConditions_spec.
  reflexivity.
Qed.

End OtherShapes.

(* ===================================================================== *)
(** ** Properties of the generated statements *)
(* ===================================================================== *)

Lemma firstn_app_exact {A : Type} (l r : list A) (n : nat) :
  n = length l -> firstn n (l ++ r) = l.
Proof.
  intros ->. rewrite firstn_app, Nat.sub_diag, firstn_all. simpl.
  apply app_nil_r.
Qed.

(** C4. For a non-empty [where] mapping [getAllRows] emits one
    [key = $i] condition per key, in the mapping's iteration order, joined
    with [" AND "], the placeholders being [$1 .. $n], and the first [n]
    bound parameters are the mapping's values in the same order; for an
    empty [where] the statement has no WHERE clause at all. *)
Theorem getAllRows_where_conditions (tableName : string) (opts : options) :
  let w := default [] (where_ opts) in
  let query := fst (getAllRows_build tableName opts) in
  let params := snd (getAllRows_build tableName opts) in
  let conds := equalities (Object_keys w) 1 in
  well_formed w ->
  (w <> [] ->
   query = select_from tableName opts
             :: Lit " WHERE " :: join " AND " conds ++ paging opts (1 + length w)
   /\ length conds = length w
   /\ map render conds
      = map (fun ki => (fst ki ++ " = $" ++ nat_to_string (snd ki))%string)
            (combine (Object_keys w) (seq 1 (length w)))
   /\ render (join " AND " conds) = String.concat " AND " (map render conds)
   /\ placeholders (join " AND " conds) = seq 1 (length w)
   /\ firstn (length w) params = Object_values w)
  /\ (w = [] ->
      query = select_from tableName opts :: paging opts 1
      /\ params = bound (limit opts) ++ bound (offset opts)
      /\ ~ In (Lit " WHERE ") query).
Proof.
  intros w query params conds Hwf.
  pose proof (getAllRows_build_shape tableName opts) as Hs.
  cbv zeta in Hs. fold w in Hs.
  subst query params conds. rewrite Hs. clear Hs. clearbody w. cbn [fst snd].
  split.
  - intros Hne.
    assert (Hwc : where_clause w 1
                  = Lit " WHERE " :: join " AND " (equalities (Object_keys w) 1))
      by (destruct w; [congruence | reflexivity]).
    rewrite Hwc. repeat split.
    + rewrite length_equalities. apply length_keys.
    + rewrite render_equalities, length_keys. reflexivity.
    + apply render_join.
    + rewrite placeholders_join, placeholders_equalities. now rewrite length_keys.
    + rewrite get_own_values by assumption.
      apply firstn_app_exact. now rewrite length_values.
  - intros Hnil. rewrite Hnil. cbn [where_clause app length Nat.add map Object_keys].
    repeat split.
    intros [Heq|Hin].
    + unfold select_from in Heq. inversion Heq.
    + exact (no_where_in_paging opts 1 Hin).
Qed.

(** The same at a two-key [where] with ORDER BY and LIMIT. *)
Lemma getAllRows_where_conditions_witness :
  let opts := mkOptions (Some [("id", VNum 7); ("name", VStr "x")])
                        (Some "id DESC") (VNum 10) VUndefined None in
  well_formed [("id", VNum 7); ("name", VStr "x")]
  /\ render (fst (getAllRows_build "users" opts))
     = "SELECT * FROM users WHERE id = $1 AND name = $2 ORDER BY id DESC LIMIT $3"
  /\ firstn 2 (snd (getAllRows_build "users" opts)) = [VNum 7; VStr "x"].
Proof.
  intros opts.
  assert (Hwf : well_formed [("id", VNum 7); ("name", VStr "x")]).
  { unfold well_formed. simpl. repeat constructor; simpl; intuition discriminate. }
  split; [exact Hwf|].
  destruct (getAllRows_where_conditions "users" opts Hwf) as [Hne _].
  destruct Hne as (Hq & _ & _ & _ & _ & Hp); [discriminate|].
  split; [rewrite Hq; reflexivity | exact Hp].
Defined.

(** C10. A [limit] of 0 (respectively an [offset] of 0) is falsy: the
    LIMIT (respectively OFFSET) clause is left out and nothing is bound for
    it, so the statement and its parameters are those of a call without the
    option, and [getAllRows] behaves as it does without it. *)
Theorem getAllRows_zero_limit_offset (tableName : string) (w : option object)
        (ob : option string) (v : value) (sel : option (list string)) :
  let keys := Object_keys (default [] w) in
  (let zero := mkOptions w ob (VNum 0) v sel in
   let absent := mkOptions w ob VUndefined v sel in
   getAllRows_build tableName zero = getAllRows_build tableName absent
   /\ fst (getAllRows_build tableName zero)
      = select_from tableName zero :: where_clause (default [] w) 1
          ++ order_by_clause zero ++ offset_clause zero (1 + length keys)
   /\ snd (getAllRows_build tableName zero)
      = map (get (default [] w)) keys ++ bound v
   /\ forall (store : Type) (this : PostgresDAO (store := store)),
       getAllRows this tableName zero = getAllRows this tableName absent)
  /\
  (let zero := mkOptions w ob v (VNum 0) sel in
   let absent := mkOptions w ob v VUndefined sel in
   getAllRows_build tableName zero = getAllRows_build tableName absent
   /\ fst (getAllRows_build tableName zero)
      = select_from tableName zero :: where_clause (default [] w) 1
          ++ order_by_clause zero ++ limit_clause zero (1 + length keys)
   /\ snd (getAllRows_build tableName zero)
      = map (get (default [] w)) keys ++ bound v
   /\ forall (store : Type) (this : PostgresDAO (store := store)),
       getAllRows this tableName zero = getAllRows this tableName absent).
Proof.
  intros keys. subst keys. rewrite length_keys.
  split; intros zero absent;
    (assert (Hsame : getAllRows_build tableName zero
                     = getAllRows_build tableName absent) by reflexivity);
    (split; [exact Hsame|]); (split; [|split]).
  - subst zero. rewrite getAllRows_build_shape.
    unfold paging, limit_clause, bound. cbn [fst where_ limit truthy Z.eqb negb app length].
    now rewrite Nat.add_0_r.
  - subst zero. rewrite getAllRows_build_shape. reflexivity.
  - intros store this. unfold getAllRows. now rewrite Hsame.
  - subst zero. rewrite getAllRows_build_shape.
    unfold paging, offset_clause. cbn [fst where_ offset truthy Z.eqb negb].
    now rewrite app_nil_r.
  - subst zero. rewrite getAllRows_build_shape.
    unfold bound at 2. cbn [snd where_ limit offset truthy Z.eqb negb].
    now rewrite app_nil_r.
  - intros store this. unfold getAllRows. now rewrite Hsame.
Qed.

(** C8. [insertRow(table, {a:1, b:2}, ['*'])] sends the statement
    [INSERT INTO table (a, b) VALUES ($1, $2) RETURNING *] (the template
    literal lays the same words out over three indented lines) with the
    bound values [[1, 2]]; for every call the columns are the keys of [data]
    in iteration order, the placeholders are [$1 .. $n], the values are those
    of [data] in the order of the columns, and that statement and those
    values are what [insertRow] passes to [runQuery]. *)
Theorem insertRow_statement :
  (let data := [("a", VNum 1); ("b", VNum 2)] in
   let query := fst (insertRow_build "table" data ["*"]) in
   words (render query)
   = words "INSERT INTO table (a, b) VALUES ($1, $2) RETURNING *"
   /\ words (render query)
      = ["INSERT"; "INTO"; "table"; "(a,"; "b)"; "VALUES"; "($1,"; "$2)";
         "RETURNING"; "*"]
   /\ render query
      = (newline ++ "      INSERT INTO table (a, b)"
           ++ newline ++ "      VALUES ($1, $2)"
           ++ newline ++ "      RETURNING *" ++ newline ++ "    ")%string
   /\ snd (insertRow_build "table" data ["*"]) = [VNum 1; VNum 2])
  /\
  (forall (tableName : string) (data : object) (returning : list string),
      let keys := Object_keys data in
      let query := fst (insertRow_build tableName data returning) in
      let values := snd (insertRow_build tableName data returning) in
      query = insert_head tableName keys "("
                :: join ", " (holes keys 1) ++ [insert_tail returning ")"]
      /\ placeholders query = seq 1 (length data)
      /\ values = Object_values data
      /\ length values = length keys
      /\ binding query values = map Some values)
  /\
  (forall (store : Type) (this : PostgresDAO (store := store))
          (tableName : string) (data : object) (returning : list string),
      insertRow this tableName data (Some returning)
      = (result <- runQuery_method this
                     (render (fst (insertRow_build tableName data returning)))
                     (Object_values data) ;;
         ret (index (rows result) 0))).
Proof.
  split; [|split].
  - cbv zeta. split; [|split; [|split]]; vm_compute; reflexivity.
  - intros tableName data returning keys query values.
    subst keys query values. rewrite insertRow_build_shape. cbn [fst snd].
    assert (Hph : placeholders
                    (insert_head tableName (Object_keys data) "("
                       :: join ", " (holes (Object_keys data) 1)
                       ++ [insert_tail returning ")"])
                  = seq 1 (length data)).
    { unfold insert_head, insert_tail. cbn [placeholders].
      rewrite placeholders_app, placeholders_join, placeholders_holes.
      cbn [placeholders]. now rewrite app_nil_r, length_keys. }
    split; [reflexivity|]. split; [exact Hph|]. split; [reflexivity|]. split.
    + now rewrite length_keys, length_values.
    + apply binding_sequential. now rewrite Hph, length_values.
  - intros store this tableName data returning.
    unfold insertRow. cbn [default].
    rewrite insertRow_build_shape. reflexivity.
Qed.

(** C9. In the statement every builder generates, the placeholders read
    [$1, $2, ..., $n] in statement order (across SET, WHERE, LIMIT and
    OFFSET, and across the rows of a multi-row INSERT), where [n] is the
    number of parameters, the parameters being the values in the order
    their placeholders were emitted; so the driver binds the N-th emitted
    placeholder to the N-th appended value.  [deleteRows] and [multiInsert]
    build a statement exactly when their argument is non-empty. *)
Theorem placeholders_sequential :
  (forall (tableName : string) (opts : options),
      let w := default [] (where_ opts) in
      let query := fst (getAllRows_build tableName opts) in
      let params := snd (getAllRows_build tableName opts) in
      placeholders query = seq 1 (length params)
      /\ binding query params = map Some params
      /\ params = map (get w) (Object_keys w)
                    ++ bound (limit opts) ++ bound (offset opts))
  /\
  (forall (tableName : string) (data : object) (w : option object)
          (returning : list string),
      let query := fst (updateRows_build tableName data w returning) in
      let params := snd (updateRows_build tableName data w returning) in
      placeholders query = seq 1 (length params)
      /\ binding query params = map Some params
      /\ params = Object_values data
                    ++ map (get (default [] w)) (Object_keys (default [] w)))
  /\
  (forall (tableName : string) (w : option object) (returning : list string),
      match deleteRows_build tableName w returning with
      | inl _ => default [] w = []
      | inr (query, params) =>
          default [] w <> []
          /\ placeholders query = seq 1 (length params)
          /\ binding query params = map Some params
          /\ params = map (get (default [] w)) (Object_keys (default [] w))
      end)
  /\
  (forall (tableName : string) (dataArray : list object) (returning : list string),
      match multiInsert_build tableName dataArray returning with
      | inl _ => dataArray = []
      | inr (query, params) =>
          dataArray <> []
          /\ placeholders query = seq 1 (length params)
          /\ binding query params = map Some params
          /\ params = flat_map
                        (fun data => map (get data) (Object_keys (hd [] dataArray)))
                        dataArray
      end).
Proof.
  split; [|split; [|split]].
  - intros tableName opts w query params. subst query params.
    pose proof (getAllRows_build_shape tableName opts) as Hs.
    cbv zeta in Hs. fold w in Hs. rewrite Hs. clear Hs. cbn [fst snd].
    assert (Hph : placeholders
                    (select_from tableName opts
                       :: where_clause w 1 ++ paging opts (1 + length w))
                  = seq 1 (length (map (get w) (Object_keys w)
                                     ++ bound (limit opts) ++ bound (offset opts)))).
    { unfold select_from. cbn [placeholders].
      rewrite placeholders_app, placeholders_where_clause, placeholders_paging.
      rewrite (length_app (map _ _)), length_map, length_keys.
      now rewrite seq_app. }
    split; [exact Hph|]. split; [|reflexivity].
    now apply binding_sequential.
  - intros tableName data w returning query params. subst query params.
    rewrite updateRows_build_shape. cbn [fst snd].
    assert (Hph : placeholders
                    (Lit ("UPDATE " ++ tableName ++ " SET ")
                       :: join ", " (equalities (Object_keys data) 1)
                       ++ where_clause (default [] w) (1 + length data)
                       ++ returning_clause returning)
                  = seq 1 (length (Object_values data
                                     ++ map (get (default [] w))
                                            (Object_keys (default [] w))))).
    { cbn [placeholders].
      rewrite !placeholders_app, placeholders_join, placeholders_equalities.
      rewrite placeholders_where_clause. unfold returning_clause.
      cbn [placeholders]. rewrite app_nil_r.
      rewrite length_app, length_map, !length_keys, length_values.
      now rewrite seq_app. }
    split; [exact Hph|]. split; [|reflexivity].
    now apply binding_sequential.
  - intros tableName w returning. rewrite deleteRows_build_shape.
    destruct (default [] w) as [|kv w']; [reflexivity|].
    assert (Hph : placeholders
                    (Lit ("DELETE FROM " ++ tableName)
                       :: where_clause (kv :: w') 1 ++ returning_clause returning)
                  = seq 1 (length (map (get (kv :: w')) (Object_keys (kv :: w'))))).
    { cbn [placeholders].
      rewrite placeholders_app, placeholders_where_clause.
      unfold returning_clause. cbn [placeholders].
      now rewrite app_nil_r, length_map, length_keys. }
    split; [discriminate|]. split; [exact Hph|]. split; [|reflexivity].
    now apply binding_sequential.
  - intros tableName dataArray returning.
    destruct dataArray as [|first others]; [reflexivity|].
    rewrite multiInsert_build_shape. cbn [hd].
    assert (Hlen : forall (keys : list string) (arr : list object),
               length (flat_map (fun data => map (get data) keys) arr)
               = length arr * length keys).
    { intros keys arr. induction arr as [|d arr IH]; [reflexivity|].
      cbn [flat_map length Nat.mul]. now rewrite length_app, length_map, IH. }
    assert (Hph : placeholders
                    (insert_head tableName (Object_keys first) ""
                       :: join ", " (tuples (Object_keys first) 1 (S (length others)))
                       ++ [insert_tail returning ""])
                  = seq 1 (length (flat_map
                                     (fun data => map (get data) (Object_keys first))
                                     (first :: others)))).
    { unfold insert_head, insert_tail. cbn [placeholders].
      rewrite placeholders_app, placeholders_join, placeholders_tuples.
      cbn [placeholders]. rewrite app_nil_r, Hlen. reflexivity. }
    split; [discriminate|]. split; [exact Hph|]. split; [|reflexivity].
    now apply binding_sequential.
Qed.

(* ===================================================================== *)
(** ** Properties of the pool and of the executor *)
(* ===================================================================== *)

Section PoolFacts.

Context {store : Type}.
Variable engine : string -> list value -> store -> completion QueryResult * store.

Lemma trace_emit (ev : event) (w : World store) :
  trace (emit ev w) = trace w ++ [ev].
Proof. reflexivity. Qed.

Lemma statements_app (a b : list event) :
  statements (a ++ b) = statements a ++ statements b.
Proof.
  induction a as [|ev a IH]; [reflexivity|].
  destruct ev; simpl; now rewrite ?IH.
Qed.

(** A client that is checked out is not handed out again: while [client]
    is held, [pool.connect()] yields a different client. *)
Lemma pool_connect_other_client (w w1 w2 w3 : World store) (client other : nat) :
  pool_wf (pool w) ->
  pool_connect w = (Return client, w1) ->
  pool w2 = pool w1 ->
  pool_connect w2 = (Return other, w3) ->
  other <> client.
Proof.
  unfold pool_wf, pool_connect. intros [Hnd Hlt] H1 Hp.
  cbv zeta in *. rewrite Hp. clear Hp. revert H1.
  destruct (idle (pool w)) as [|c rest] eqn:Hidle.
  - destruct (totalCount (pool w) <? max (pool w)); [|intros Hd; discriminate Hd].
    intros H1. inversion H1; subst. clear H1. cbn.
    match goal with |- context [if ?b then _ else _] => destruct b end;
      [|intros Hd; discriminate Hd].
    intros H2. inversion H2. lia.
  - intros H1. inversion H1; subst. clear H1. cbn.
    inversion Hnd as [|? ? Hnotin Hnd']; subst.
    inversion Hlt as [|? ? Hc Hrest]; subst.
    destruct rest as [|c' rest'].
    + match goal with |- context [if ?b then _ else _] => destruct b end;
        [|intros Hd; discriminate Hd].
      intros H2. inversion H2. lia.
    + intros H2. inversion H2; subst. intros ->. apply Hnotin. now left.
Qed.

(** A statement on a client leaves the pool as it is. *)
Lemma client_query_pool (client : nat) (text : string) (params : list value)
      (w : World store) :
  pool (snd (client_query engine client text params w)) = pool w.
Proof.
  unfold client_query.
  destruct (fault_of text (faults (emit (Query client text params) w)));
    [reflexivity|].
  destruct (String.eqb text "BEGIN"); [reflexivity|].
  destruct (String.eqb text "COMMIT").
  { destruct (tx_find client _); reflexivity. }
  destruct (String.eqb text "ROLLBACK"); [reflexivity|].
  destruct (tx_find client _).
  - destruct (engine text params _) as [[r|e] s]; reflexivity.
  - destruct (engine text params _) as [[r|e] s]; reflexivity.
Qed.

(** Once [runQuery] has its client, the statement goes out on it. *)
Ltac trace_tail := cbn; eexists; rewrite <- !app_assoc; reflexivity.

Lemma runQuery_sends (text : string) (params : list value)
      (w w1 : World store) (client : nat) :
  pool_connect w = (Return client, w1) ->
  exists after,
    trace (snd (runQuery engine text params w))
    = trace w1 ++ Query client text params :: after.
Proof.
  intros Hc. unfold runQuery, bind. rewrite Hc.
  unfold try_finally, try_catch, bind, client_query.
  destruct (fault_of text (faults (emit (Query client text params) w1)));
    [trace_tail|].
  destruct (String.eqb text "BEGIN"); [trace_tail|].
  destruct (String.eqb text "COMMIT").
  { destruct (tx_find client _); trace_tail. }
  destruct (String.eqb text "ROLLBACK"); [trace_tail|].
  destruct (tx_find client _);
    destruct (engine text params _) as [[r|e] s]; trace_tail.
Qed.

End PoolFacts.

(* ===================================================================== *)
(** ** Properties of the DAO methods *)
(* ===================================================================== *)

Section MethodFacts.

Context {store : Type}.
Variable engine : string -> list value -> store -> completion QueryResult * store.

Lemma bind_ret_world {A B : Type} (m : M store A) (f : A -> B) (w : World store) :
  snd (bind m (fun a => ret (f a)) w) = snd (m w).
Proof.
  unfold bind, ret. destruct (m w) as [[a|e] w']; reflexivity.
Qed.

Lemma getSingleRow_build (tableName : string) (w : object) (sel : list string) :
  let opts := mkOptions (Some w) None (VNum 1) VUndefined (Some sel) in
  getAllRows_build tableName opts
  = (select_from tableName opts
       :: where_clause w 1 ++ [Lit " LIMIT "; Ph (1 + length w)],
     map (get w) (Object_keys w) ++ [VNum 1]).
Proof.
  intros opts. rewrite getAllRows_build_shape. reflexivity.
Qed.

End MethodFacts.

(** C5. [deleteRows] with an empty [where] mapping (given or defaulted)
    throws the DAO's own precondition error for every table name, DAO
    handle and state of the world, and leaves the world exactly as it was:
    no client is taken from the pool and no statement is sent. *)
Theorem deleteRows_empty_where {store : Type} (this : PostgresDAO (store := store))
        (tableName : string) (returning : option (list string))
        (w : World store) :
  let unsafe := Error "DELETE operation requires WHERE conditions for safety" in
  deleteRows this tableName (Some []) returning w = (Throw unsafe, w)
  /\ deleteRows this tableName None returning w = (Throw unsafe, w)
  /\ is_validation_error unsafe = true
  /\ statements (trace (snd (deleteRows this tableName (Some []) returning w)))
     = statements (trace w).
Proof.
  intros unsafe. repeat (split; try reflexivity).
Qed.

(** C7. [getSingleRow] runs [getAllRows] with the same table, [where] and
    column list and [limit: 1] (so the statement ends in [LIMIT $n] with 1
    bound to it); it returns the first row when there is one and [null]
    when there is none, passes an error on unchanged, and never returns
    [undefined]. *)
Theorem getSingleRow_first_or_null {store : Type}
        (this : PostgresDAO (store := store)) (tableName : string)
        (where_ : option object) (select : option (list string))
        (w : World store) :
  let opts := mkOptions (Some (default [] where_)) None (VNum 1) VUndefined
                        (Some (default ["*"] select)) in
  getSingleRow this tableName where_ select w
  = match getAllRows this tableName opts w with
    | (Return [], w') => (Return Null, w')
    | (Return (first :: _), w') => (Return (Row first), w')
    | (Throw e, w') => (Throw e, w')
    end
  /\ fst (getSingleRow this tableName where_ select w) <> Return Undefined
  /\ getAllRows_build tableName opts
     = (select_from tableName opts
          :: where_clause (default [] where_) 1
          ++ [Lit " LIMIT "; Ph (1 + length (default [] where_))],
        map (get (default [] where_)) (Object_keys (default [] where_)) ++ [VNum 1]).
Proof.
  intros opts.
  assert (Hrun : getSingleRow this tableName where_ select w
                 = match getAllRows this tableName opts w with
                   | (Return [], w') => (Return Null, w')
                   | (Return (first :: _), w') => (Return (Row first), w')
                   | (Throw e, w') => (Throw e, w')
                   end).
  { unfold getSingleRow, bind. fold opts.
    destruct (getAllRows this tableName opts w) as [[[|first rest]|e] w'];
      reflexivity. }
  split; [exact Hrun|]. split.
  - rewrite Hrun.
    destruct (getAllRows this tableName opts w) as [[[|first rest]|e] w'];
      discriminate.
  - apply getSingleRow_build.
Qed.

(** C6, as the code has it: an empty array makes [multiInsert] throw its
    precondition error with the world untouched, whereas an empty [data]
    mapping is not checked by [insertRow] or [updateRows]: once the pool
    has handed out a client, the statement with the empty column list
    ([INSERT INTO t () VALUES () ...], [UPDATE t SET  ...]) is sent on it. *)
Theorem empty_input_preconditions {store : Type}
        (engine : string -> list value -> store -> completion QueryResult * store)
        (tableName : string) (where_ : option object)
        (returning : option (list string))
        (w w1 : World store) (client : nat) :
  pool_connect w = (Return client, w1) ->
  (forall this : PostgresDAO,
      multiInsert this tableName [] returning w
      = (Throw (Error "Data array must be a non-empty array"), w))
  /\ (exists after,
         trace (snd (insertRow (defaultPgDao engine) tableName [] returning w))
         = trace w1
             ++ Query client
                  (render [insert_head tableName [] "(";
                           insert_tail (default ["*"] returning) ")"]) []
             :: after)
  /\ (exists after,
         trace (snd (updateRows (defaultPgDao engine) tableName [] where_ returning w))
         = trace w1
             ++ Query client
                  (render (Lit ("UPDATE " ++ tableName ++ " SET ")
                             :: where_clause (default [] where_) 1
                             ++ returning_clause (default ["*"] returning)))
                  (map (get (default [] where_)) (Object_keys (default [] where_)))
             :: after).
Proof.
  intros Hc. split; [reflexivity|]. split.
  - unfold insertRow. rewrite insertRow_build_shape.
    cbn [defaultPgDao runQuery_method]. rewrite bind_ret_world.
    exact (runQuery_sends engine _ _ w w1 client Hc).
  - unfold updateRows. rewrite updateRows_build_shape.
    cbn [defaultPgDao runQuery_method]. rewrite bind_ret_world.
    exact (runQuery_sends engine _ _ w w1 client Hc).
Qed.

(** The same on a pool that has created no client yet. *)
Lemma empty_input_preconditions_witness :
  pool_connect TestDb.fresh
  = (Return 0,
     emit (Connect 0)
       (emit (ConsoleLog [AStr "New client connected to PostgreSQL database"])
          (set_pool (mkPool [] 1 20) TestDb.fresh)))
  /\ exists after,
      trace (snd (insertRow (defaultPgDao TestDb.engine) "t" [] None TestDb.fresh))
      = [ConsoleLog [AStr "New client connected to PostgreSQL database"]; Connect 0]
          ++ Query 0 (render [insert_head "t" [] "("; insert_tail ["*"] ")"]) []
          :: after.
Proof.
  split; [reflexivity|].
  exact (proj1 (proj2 (empty_input_preconditions TestDb.engine "t" None None
                         TestDb.fresh _ 0 eq_refl))).
Defined.

(** C6 fails as stated: [insertRow] with an empty [data] mapping raises
    nothing of its own and the statement reaches the database. *)
Lemma empty_data_counterexample :
  let run := insertRow (defaultPgDao TestDb.engine) "t" [] None TestDb.fresh in
  fst run = Return Undefined
  /\ words (render [insert_head "t" [] "("; insert_tail ["*"] ")"])
     = ["INSERT"; "INTO"; "t"; "()"; "VALUES"; "()"; "RETURNING"; "*"]
  /\ statements (trace (snd run))
     = [(0, render [insert_head "t" [] "("; insert_tail ["*"] ")"], [])]
  /\ ~ (exists e, fst run = Throw e /\ is_validation_error e = true
                  /\ statements (trace (snd run)) = []).
Proof.
  cbv zeta. split; [vm_compute; reflexivity|].
  split; [vm_compute; reflexivity|].
  split; [vm_compute; reflexivity|].
  intros (e & He & _). vm_compute in He. discriminate He.
Qed.

(** C3, as the code has it: when the callback of a transaction throws,
    ROLLBACK is sent on the transaction's client; if it succeeds the
    rollback is logged at error level with the message of the original
    error and that error is re-thrown; if ROLLBACK itself throws, its error
    is the one the caller gets and the transaction logs nothing.  The client
    goes back to the pool either way. *)
Theorem transaction_error_propagation {store : Type} {A : Type}
        (engine : string -> list value -> store -> completion QueryResult * store)
        (this : PostgresDAO) (operations : PostgresDAO -> M store A)
        (w w1 w2 w3 : World store) (client : nat) (begun : QueryResult)
        (error : exn) :
  pool_connect w = (Return client, w1) ->
  client_query engine client "BEGIN" [] w1 = (Return begun, w2) ->
  operations this w2 = (Throw error, w3) ->
  match client_query engine client "ROLLBACK" [] w3 with
  | (Return _, w4) =>
      transaction engine this operations w
      = (Throw error,
         snd (client_release client
                (emit (ConsoleError [AStr "❌ Transaction rolled back:";
                                     AStr (message error)]) w4)))
  | (Throw rollbackError, w4) =>
      transaction engine this operations w
      = (Throw rollbackError, snd (client_release client w4))
  end.
Proof.
  intros Hc Hb Hop.
  destruct (client_query engine client "ROLLBACK" [] w3) as [[r|e] w4] eqn:Hr;
    unfold transaction, try_finally, try_catch, bind;
    rewrite Hc; cbv beta iota; rewrite Hb; cbv beta iota;
    rewrite Hop; cbv beta iota; rewrite Hr; reflexivity.
Qed.

(** The same at a callback that throws at once, on a connection that
    fails ROLLBACK. *)
Lemma transaction_error_propagation_witness :
  transaction TestDb.engine (defaultPgDao TestDb.engine)
    (fun _ => throw (A := unit) TestDb.boom)
    (TestDb.faulty [("ROLLBACK", "Connection terminated unexpectedly")])
  = (Throw (DriverError "Connection terminated unexpectedly"),
     mkWorld (mkPool [0] 1 20) [] [(0, [])]
       [("ROLLBACK", "Connection terminated unexpectedly")]
       [ConsoleLog [AStr "New client connected to PostgreSQL database"];
        Connect 0; Query 0 "BEGIN" []; Query 0 "ROLLBACK" []; Release 0]).
Proof.
  exact (transaction_error_propagation TestDb.engine (defaultPgDao TestDb.engine)
           (fun _ => throw (A := unit) TestDb.boom)
           (TestDb.faulty [("ROLLBACK", "Connection terminated unexpectedly")])
           _ _ _ 0 empty_result TestDb.boom eq_refl eq_refl eq_refl).
Defined.

(** C3 fails as stated: with a ROLLBACK that fails, the caller gets the
    rollback's error, not the callback's, and nothing is logged. *)
Lemma rollback_failure_counterexample :
  let run := transaction TestDb.engine (defaultPgDao TestDb.engine)
               (fun _ => throw (A := unit) TestDb.boom)
               (TestDb.faulty [("ROLLBACK", "Connection terminated unexpectedly")]) in
  fst run = Throw (DriverError "Connection terminated unexpectedly")
  /\ fst run <> Throw TestDb.boom
  /\ statements (trace (snd run)) = [(0, "BEGIN", []); (0, "ROLLBACK", [])]
  /\ errors_logged (trace (snd run)) = [].
Proof.
  cbv zeta. split; [vm_compute; reflexivity|].
  split; [vm_compute; discriminate|].
  split; vm_compute; reflexivity.
Qed.

(* ===================================================================== *)
(** ** The transaction scope *)
(* ===================================================================== *)

(** The database model does roll back what was written on the client
    that ran BEGIN. *)
Example rollback_discards_same_client :
  let run := (client_query TestDb.engine 0 "BEGIN" [] ;;
              client_query TestDb.engine 0 (insert_text "t" ["a"] ["*"]) [VNum 1] ;;
              client_query TestDb.engine 0 "ROLLBACK" []) TestDb.fresh in
  fst run = Return empty_result /\ committed (snd run) = [].
Proof. cbv zeta. split; vm_compute; reflexivity. Qed.

(** ... and commits it on COMMIT. *)
Example commit_applies_same_client :
  let run := (client_query TestDb.engine 0 "BEGIN" [] ;;
              client_query TestDb.engine 0 (insert_text "t" ["a"] ["*"]) [VNum 1] ;;
              client_query TestDb.engine 0 "COMMIT" []) TestDb.fresh in
  committed (snd run) = [(insert_text "t" ["a"] ["*"], [VNum 1])].
Proof. cbv zeta. vm_compute. reflexivity. Qed.

(** Inside a transaction scope (client [client] holds the BEGIN), a
    statement that the callback issues through [runQuery] goes out on
    whichever client the pool hands out next, and that is never [client]. *)
Lemma callback_statement_on_other_client {store : Type}
      (engine : string -> list value -> store -> completion QueryResult * store)
      (text : string) (params : list value)
      (w w1 w2 w3 : World store) (client other : nat) (begun : QueryResult) :
  pool_wf (pool w) ->
  pool_connect w = (Return client, w1) ->
  client_query engine client "BEGIN" [] w1 = (Return begun, w2) ->
  pool_connect w2 = (Return other, w3) ->
  other <> client
  /\ exists after,
      trace (snd (runQuery engine text params w2))
      = trace w3 ++ Query other text params :: after.
Proof.
  intros Hwf Hc Hb Hc'. split.
  - apply (pool_connect_other_client w w1 w2 w3 client other Hwf Hc); [|exact Hc'].
    pose proof (client_query_pool engine client "BEGIN" [] w1) as Hp.
    now rewrite Hb in Hp.
  - exact (runQuery_sends engine text params w2 w3 other Hc').
Qed.

(** C1, at a callback that inserts one row: BEGIN and COMMIT run on the
    client taken for the scope (client 0), whereas the callback receives the
    DAO itself, whose [runQuery] takes a further client from the pool
    (client 1), runs the INSERT there and releases it. *)
Theorem transaction_callback_client :
  let run := transaction TestDb.engine (defaultPgDao TestDb.engine)
               (fun dao => insertRow dao "t" [("a", VNum 1)] None)
               TestDb.fresh in
  let insert := insert_text "t" ["a"] ["*"] in
  trace (snd run)
  = [ConsoleLog [AStr "New client connected to PostgreSQL database"];
     Connect 0; Query 0 "BEGIN" [];
     ConsoleLog [AStr "New client connected to PostgreSQL database"];
     Connect 1; Query 1 insert [VNum 1];
     ConsoleLog [AElapsed; AStr (preview insert)];
     Release 1; Query 0 "COMMIT" []; Release 0]
  /\ statements (trace (snd run))
     = [(0, "BEGIN", []); (1, insert, [VNum 1]); (0, "COMMIT", [])]
  /\ words insert
     = ["INSERT"; "INTO"; "t"; "(a)"; "VALUES"; "($1)"; "RETURNING"; "*"].
Proof.
  cbv zeta. split; [|split]; vm_compute; reflexivity.
Qed.

(** C2, at a callback that inserts one row and then throws, and at a batch
    whose second update the database rejects: the caller gets the original
    error and ROLLBACK is sent on the scope's client, but the writes were
    made on another client outside any transaction, so they stay
    committed. *)
Theorem failed_scope_writes_remain :
  (let run := transaction TestDb.engine (defaultPgDao TestDb.engine)
                (fun dao => insertRow dao "t" [("a", VNum 1)] None ;;
                            throw (A := unit) TestDb.boom)
                TestDb.fresh in
   let insert := insert_text "t" ["a"] ["*"] in
   fst run = Throw TestDb.boom
   /\ statements (trace (snd run))
      = [(0, "BEGIN", []); (1, insert, [VNum 1]); (0, "ROLLBACK", [])]
   /\ committed (snd run) = [(insert, [VNum 1])])
  /\
  (let run := multiUpdate TestDb.engine (defaultPgDao TestDb.engine) "t"
                [mkItem [("a", VNum 1)] (Some [("id", VNum 1)]);
                 mkItem [("a", VNull)] (Some [("id", VNum 2)])]
                None TestDb.fresh in
   let update := "UPDATE t SET a = $1 WHERE id = $2 RETURNING *" in
   fst run = Throw (DriverError "null value violates not-null constraint")
   /\ statements (trace (snd run))
      = [(0, "BEGIN", []); (1, update, [VNum 1; VNum 1]);
         (1, update, [VNull; VNum 2]); (0, "ROLLBACK", [])]
   /\ committed (snd run) = [(update, [VNum 1; VNum 1])]).
Proof.
  cbv zeta. split; (split; [|split]); vm_compute; reflexivity.
Qed.

(* ===================================================================== *)
(** ** The query executor *)
(* ===================================================================== *)

Section ExecutorFacts.

Context {store : Type}.
Variable engine : string -> list value -> store -> completion QueryResult * store.

Lemma client_query_trace (client : nat) (text : string) (params : list value)
      (w : World store) :
  trace (snd (client_query engine client text params w))
  = trace w ++ [Query client text params].
Proof.
  unfold client_query.
  destruct (fault_of text (faults (emit (Query client text params) w)));
    [reflexivity|].
  destruct (String.eqb text "BEGIN"); [reflexivity|].
  destruct (String.eqb text "COMMIT").
  { destruct (tx_find client _); reflexivity. }
  destruct (String.eqb text "ROLLBACK"); [reflexivity|].
  destruct (tx_find client _);
    destruct (engine text params _) as [[r|e] s]; reflexivity.
Qed.

Lemma client_query_faults (client : nat) (text : string) (params : list value)
      (w : World store) :
  faults (snd (client_query engine client text params w)) = faults w.
Proof.
  unfold client_query.
  destruct (fault_of text (faults (emit (Query client text params) w)));
    [reflexivity|].
  destruct (String.eqb text "BEGIN"); [reflexivity|].
  destruct (String.eqb text "COMMIT").
  { destruct (tx_find client _); reflexivity. }
  destruct (String.eqb text "ROLLBACK"); [reflexivity|].
  destruct (tx_find client _);
    destruct (engine text params _) as [[r|e] s]; reflexivity.
Qed.

(** One run of [runQuery] once the pool has handed out [client]. *)
Lemma runQuery_run (text : string) (params : list value)
      (w w1 : World store) (client : nat) :
  pool_connect w = (Return client, w1) ->
  runQuery engine text params w
  = match client_query engine client text params w1 with
    | (Return result, w2) =>
        (Return result,
         snd (client_release client
                (emit (ConsoleLog [AElapsed; AStr (preview text)]) w2)))
    | (Throw error, w2) =>
        (Throw error,
         snd (client_release client
                (emit (ConsoleError [AStr "Params:"; AParams params])
                   (emit (ConsoleError [AStr "Query:"; AStr text])
                      (emit (ConsoleError [AStr "❌ Query execution error:";
                                           AStr (message error)]) w2)))))
    end.
Proof.
  intros Hc. unfold runQuery, bind at 1. rewrite Hc.
  unfold try_finally, try_catch, bind.
  destruct (client_query engine client text params w1) as [[r|e] w2];
    reflexivity.
Qed.

Lemma pool_connect_pool (w w1 : World store) (client : nat) :
  pool_wf (pool w) ->
  pool_connect w = (Return client, w1) ->
  pool_wf (mkPool (client :: idle (pool w1)) (totalCount (pool w1)) (max (pool w1)))
  /\ ~ In client (idle (pool w1))
  /\ client < totalCount (pool w1).
Proof.
  unfold pool_wf, pool_connect. intros [Hnd Hlt]. cbv zeta.
  destruct (idle (pool w)) as [|c rest] eqn:Hidle.
  - destruct (totalCount (pool w) <? max (pool w)); [|intros Hd; discriminate Hd].
    intros H. inversion H; subst. clear H. cbn.
    split; [split|split].
    + constructor; [intros []|constructor].
    + constructor; [lia|constructor].
    + intros [].
    + lia.
  - intros H. inversion H; subst. clear H. cbn.
    inversion Hnd as [|? ? Hnotin Hnd']; subst.
    inversion Hlt as [|? ? Hc Hrest]; subst.
    split; [split|split]; assumption.
Qed.

End ExecutorFacts.



(** X2. [runQuery] adds nothing to what the statement does: it completes
    as [client.query] on its client completes (the same result, or the same
    error), the database is left as that one statement leaves it, and the
    trace gains exactly the statement, one success line (or the three error
    lines with the message, the text and the parameters) and the release. *)
Theorem runQuery_outcome {store : Type}
        (engine : string -> list value -> store -> completion QueryResult * store)
        (text : string) (params : list value)
        (w w1 : World store) (client : nat) :
  pool_connect w = (Return client, w1) ->
  let sent := client_query engine client text params w1 in
  let run := runQuery engine text params w in
  fst run = fst sent
  /\ committed (snd run) = committed (snd sent)
  /\ open_tx (snd run) = open_tx (snd sent)
  /\ trace (snd run)
     = trace w1 ++ Query client text params
         :: match fst sent with
            | Return _ => [ConsoleLog [AElapsed; AStr (preview text)]]
            | Throw error =>
                [ConsoleError [AStr "❌ Query execution error:"; AStr (message error)];
                 ConsoleError [AStr "Query:"; AStr text];
                 ConsoleError [AStr "Params:"; AParams params]]
            end
         ++ [Release client].
Proof.
  intros Hc sent run. subst sent run.
  rewrite (runQuery_run engine text params w w1 client Hc).
  pose proof (client_query_trace engine client text params w1) as Ht.
  destruct (client_query engine client text params w1) as [[r|e] w2];
    cbn in Ht |- *; rewrite Ht, <- !app_assoc; auto.
Qed.

(** The same for a statement the test database rejects. *)
Lemma runQuery_outcome_witness :
  fst (runQuery TestDb.engine "UPDATE t SET a = $1" [VNull] TestDb.fresh)
  = Throw (DriverError "null value violates not-null constraint").
Proof.
  exact (proj1 (runQuery_outcome TestDb.engine "UPDATE t SET a = $1" [VNull]
                  TestDb.fresh _ 0 eq_refl)).
Defined.

Section PoolExhausted.

Context {store : Type}.

Lemma pool_connect_exhausted (w : World store) :
  idle (pool w) = [] ->
  max (pool w) <= totalCount (pool w) ->
  pool_connect w = (Throw (PoolTimeout "timeout exceeded when trying to connect"), w).
Proof.
  intros Hidle Hfull. unfold pool_connect. cbv zeta. rewrite Hidle.
  destruct (Nat.ltb_spec (totalCount (pool w)) (max (pool w))); [lia|reflexivity].
Qed.

End PoolExhausted.

(** X3. With every client of the pool checked out, [runQuery],
    [transaction] and [multiUpdate] (on a non-empty batch) fail with the
    pool's acquire timeout and leave the world untouched: no statement is
    sent, nothing is logged, and the callback of [transaction] is not
    called. *)
Theorem pool_exhausted_nothing_sent {store : Type} {A : Type}
        (engine : string -> list value -> store -> completion QueryResult * store)
        (this : PostgresDAO) (w : World store)
        (text : string) (params : list value)
        (operations : PostgresDAO -> M store A)
        (tableName : string) (item : updateItem) (others : list updateItem)
        (returning : option (list string)) :
  idle (pool w) = [] ->
  max (pool w) <= totalCount (pool w) ->
  let timeout := PoolTimeout "timeout exceeded when trying to connect" in
  runQuery engine text params w = (Throw timeout, w)
  /\ transaction engine this operations w = (Throw timeout, w)
  /\ multiUpdate engine this tableName (item :: others) returning w
     = (Throw timeout, w).
Proof.
  intros Hidle Hfull timeout.
  pose proof (pool_connect_exhausted w Hidle Hfull) as Hc.
  unfold runQuery, transaction, multiUpdate, bind. cbn [length Nat.eqb].
  rewrite Hc. auto.
Qed.

(** The same on a pool of one client that is checked out. *)
Lemma pool_exhausted_nothing_sent_witness :
  let w := mkWorld (mkPool [] 1 1) ([] : TestDb.store) [] [] [] in
  runQuery TestDb.engine "SELECT 1" [] w
  = (Throw (PoolTimeout "timeout exceeded when trying to connect"), w).
Proof.
  intros w.
  assert (Hfull : max (pool w) <= totalCount (pool w)) by (simpl; lia).
  exact (proj1 (pool_exhausted_nothing_sent (A := unit) TestDb.engine
                  (defaultPgDao TestDb.engine) w "SELECT 1" []
                  (fun _ => ret tt) "t" (mkItem [] None) [] None eq_refl Hfull)).
Defined.

Section PreviewFacts.

Lemma substring_short (n : nat) (s : string) :
  String.length s <= n -> substring 0 n s = s.
Proof.
  revert n. induction s as [|c s IH]; intros n Hle.
  - destruct n; reflexivity.
  - destruct n as [|n]; [simpl in Hle; lia|].
    simpl. f_equal. apply IH. simpl in Hle. lia.
Qed.

Lemma substring_length (n : nat) (s : string) :
  String.length (substring 0 n s) = Nat.min n (String.length s).
Proof.
  revert n. induction s as [|c s IH]; intros n.
  - destruct n; reflexivity.
  - destruct n as [|n]; [reflexivity|]. simpl. now rewrite IH.
Qed.

Lemma string_length_app (a b : string) :
  String.length (a ++ b) = String.length a + String.length b.
Proof.
  induction a as [|c a IH]; simpl; [reflexivity | now rewrite IH].
Qed.

End PreviewFacts.

(** X4. The statement text that [runQuery] logs is the text itself when it
    has at most 100 characters, and otherwise its first 100 characters
    followed by ["..."]; it never has more than 103 characters. *)
Theorem preview_bounded (text : string) :
  (String.length text <= 100 -> preview text = text)
  /\ (100 < String.length text ->
      preview text = (substring 0 100 text ++ "...")%string
      /\ String.length (preview text) = 103
      /\ String.prefix (substring 0 100 text) text = true)
  /\ String.length (preview text) <= 103.
Proof.
  unfold preview. cbv zeta.
  split; [|split].
  - intros Hle.
    destruct (Nat.ltb_spec 100 (String.length text)) as [Hlt|_]; [lia|].
    rewrite substring_short by assumption. apply string_app_nil_r.
  - intros Hlt.
    destruct (Nat.ltb_spec 100 (String.length text)) as [_|Hle]; [|lia].
    split; [reflexivity|]. split.
    + rewrite string_length_app, substring_length.
      rewrite Nat.min_l by lia. reflexivity.
    + generalize 100 as n. intros n. clear Hlt. revert n.
      induction text as [|c text IH]; intros n.
      * destruct n; reflexivity.
      * destruct n as [|n]; [reflexivity|].
        simpl. destruct (ascii_dec c c) as [_|Hne]; [apply IH | congruence].
  - rewrite string_length_app, substring_length.
    pose proof (Nat.le_min_l 100 (String.length text)) as Hmin.
    destruct (100 <? String.length text); cbn [String.length]; lia.
Qed.

(** The same at a short statement and at one of 101 characters. *)
Lemma preview_bounded_witness :
  preview "SELECT 1" = "SELECT 1"
  /\ String.length
       (preview "SELECT aaaaaaaaaaaaaaaaaaaaaaaaaaaaaaaaaaaaaaaaaaaaaaaaaaaaaaaaaaaaaaaaaaaaaaaaaaaaaaaaaaaaaaaaaaaaaaaaaaaaaaaaaa") = 103.
Proof.
  split.
  - apply (proj1 (preview_bounded "SELECT 1")). simpl. lia.
  - apply (proj1 (proj2 (preview_bounded "SELECT aaaaaaaaaaaaaaaaaaaaaaaaaaaaaaaaaaaaaaaaaaaaaaaaaaaaaaaaaaaaaaaaaaaaaaaaaaaaaaaaaaaaaaaaaaaaaaaaaaaaaaaaaa"))).
    vm_compute. lia.
Defined.

(* ===================================================================== *)
(** ** More on the transaction scope *)
(* ===================================================================== *)

(** X5. When BEGIN succeeds and the callback returns, COMMIT is sent on
    the scope's client.  If it succeeds the caller gets the callback's
    result and the client is released.  If COMMIT itself throws, ROLLBACK is
    sent on the same client after it, and the caller gets COMMIT's error
    (logged), or ROLLBACK's error if that fails too. *)
Theorem transaction_commit_path {store : Type} {A : Type}
        (engine : string -> list value -> store -> completion QueryResult * store)
        (this : PostgresDAO) (operations : PostgresDAO -> M store A)
        (w w1 w2 w3 : World store) (client : nat) (begun : QueryResult)
        (result : A) :
  pool_connect w = (Return client, w1) ->
  client_query engine client "BEGIN" [] w1 = (Return begun, w2) ->
  operations this w2 = (Return result, w3) ->
  transaction engine this operations w
  = match client_query engine client "COMMIT" [] w3 with
    | (Return _, w4) => (Return result, snd (client_release client w4))
    | (Throw error, w4) =>
        match client_query engine client "ROLLBACK" [] w4 with
        | (Return _, w5) =>
            (Throw error,
             snd (client_release client
                    (emit (ConsoleError [AStr "❌ Transaction rolled back:";
                                         AStr (message error)]) w5)))
        | (Throw rollbackError, w5) =>
            (Throw rollbackError, snd (client_release client w5))
        end
    end.
Proof.
  intros Hc Hb Hop.
  unfold transaction, try_finally, try_catch, bind.
  rewrite Hc; cbv beta iota. rewrite Hb; cbv beta iota. rewrite Hop; cbv beta iota.
  destruct (client_query engine client "COMMIT" [] w3) as [[r|e] w4];
    [reflexivity|].
  destruct (client_query engine client "ROLLBACK" [] w4) as [[r|e'] w5];
    reflexivity.
Qed.

(** The same at a callback that returns at once, on a connection that
    fails COMMIT. *)
Lemma transaction_commit_path_witness :
  let w := TestDb.faulty [("COMMIT", "could not serialize access")] in
  let run := transaction TestDb.engine (defaultPgDao TestDb.engine)
               (fun _ => ret 7) w in
  fst run = Throw (DriverError "could not serialize access")
  /\ statements (trace (snd run))
     = [(0, "BEGIN", []); (0, "COMMIT", []); (0, "ROLLBACK", [])].
Proof.
  intros w run. subst run.
  rewrite (transaction_commit_path TestDb.engine (defaultPgDao TestDb.engine)
             (fun _ => ret 7) w _ _ _ 0 empty_result 7 eq_refl eq_refl eq_refl).
  split; reflexivity.
Defined.

(** X6. When BEGIN throws, the callback is never called: ROLLBACK is
    sent on the scope's client and the caller gets BEGIN's error (logged),
    or ROLLBACK's error if that fails too, whatever the callback is. *)
Theorem transaction_begin_failure {store : Type} {A : Type}
        (engine : string -> list value -> store -> completion QueryResult * store)
        (this : PostgresDAO) (operations : PostgresDAO -> M store A)
        (w w1 w2 : World store) (client : nat) (error : exn) :
  pool_connect w = (Return client, w1) ->
  client_query engine client "BEGIN" [] w1 = (Throw error, w2) ->
  transaction engine this operations w
  = match client_query engine client "ROLLBACK" [] w2 with
    | (Return _, w3) =>
        (Throw error,
         snd (client_release client
                (emit (ConsoleError [AStr "❌ Transaction rolled back:";
                                     AStr (message error)]) w3)))
    | (Throw rollbackError, w3) =>
        (Throw rollbackError, snd (client_release client w3))
    end.
Proof.
  intros Hc Hb.
  unfold transaction, try_finally, try_catch, bind.
  rewrite Hc; cbv beta iota. rewrite Hb; cbv beta iota.
  destruct (client_query engine client "ROLLBACK" [] w2) as [[r|e'] w3];
    reflexivity.
Qed.

(** The same on a connection that fails BEGIN, with a callback that
    would insert a row. *)
Lemma transaction_begin_failure_witness :
  let w := TestDb.faulty [("BEGIN", "Connection terminated unexpectedly")] in
  let run := transaction TestDb.engine (defaultPgDao TestDb.engine)
               (fun dao => insertRow dao "t" [("a", VNum 1)] None) w in
  fst run = Throw (DriverError "Connection terminated unexpectedly")
  /\ statements (trace (snd run)) = [(0, "BEGIN", []); (0, "ROLLBACK", [])]
  /\ committed (snd run) = [].
Proof.
  intros w run. subst run.
  rewrite (transaction_begin_failure TestDb.engine (defaultPgDao TestDb.engine)
             (fun dao => insertRow dao "t" [("a", VNum 1)] None) w _ _ 0
             (DriverError "Connection terminated unexpectedly") eq_refl eq_refl).
  split; [|split]; reflexivity.
Defined.



Section ControlStatements.

Context {store : Type}.
Variable engine : string -> list value -> store -> completion QueryResult * store.

Lemma pool_connect_keeps_database (w w1 : World store) (client : nat) :
  pool_connect w = (Return client, w1) ->
  faults w1 = faults w /\ committed w1 = committed w /\ open_tx w1 = open_tx w.
Proof.
  unfold pool_connect. cbv zeta.
  destruct (idle (pool w)) as [|c rest].
  - destruct (totalCount (pool w) <? max (pool w)); [|intros Hd; discriminate Hd].
    intros H. inversion H; subst. auto.
  - intros H. inversion H; subst. auto.
Qed.

Lemma client_query_begin (client : nat) (w : World store) :
  fault_of "BEGIN" (faults w) = None ->
  client_query engine client "BEGIN" [] w
  = (Return empty_result,
     set_open_tx (tx_set client [] (open_tx w)) (emit (Query client "BEGIN" []) w)).
Proof.
  intros Hf. unfold client_query. cbn [emit faults]. rewrite Hf. reflexivity.
Qed.

Lemma client_query_rollback (client : nat) (w : World store) :
  fault_of "ROLLBACK" (faults w) = None ->
  client_query engine client "ROLLBACK" [] w
  = (Return empty_result,
     set_open_tx (tx_remove client (open_tx w))
       (emit (Query client "ROLLBACK" []) w)).
Proof.
  intros Hf. unfold client_query. cbn [emit faults]. rewrite Hf. reflexivity.
Qed.

End ControlStatements.

(** X8. A scope whose callback issues a query needs a second client: if
    the scope's own client was the last the pool could hand out, the
    callback's [runQuery] fails with the acquire timeout, so on a healthy
    connection the scope sends BEGIN and ROLLBACK only, the caller gets the
    timeout, and the database is unchanged. *)
Theorem transaction_needs_second_client {store : Type}
        (engine : string -> list value -> store -> completion QueryResult * store)
        (text : string) (params : list value)
        (w w1 : World store) (client : nat) :
  pool_connect w = (Return client, w1) ->
  idle (pool w1) = [] ->
  max (pool w1) <= totalCount (pool w1) ->
  faults w = [] ->
  let run := transaction engine (defaultPgDao engine)
               (fun dao => runQuery_method dao text params) w in
  fst run = Throw (PoolTimeout "timeout exceeded when trying to connect")
  /\ statements (trace (snd run))
     = statements (trace w1) ++ [(client, "BEGIN", []); (client, "ROLLBACK", [])]
  /\ committed (snd run) = committed w.
Proof.
  intros Hc Hidle Hfull Hfaults run. subst run.
  destruct (pool_connect_keeps_database w w1 client Hc) as (Hf1 & Hcm & _).
  rewrite Hfaults in Hf1.
  unfold transaction, try_finally, try_catch, bind.
  rewrite Hc; cbv beta iota.
  rewrite client_query_begin by (rewrite Hf1; reflexivity). cbv beta iota.
  cbn [defaultPgDao runQuery_method].
  set (w2 := set_open_tx (tx_set client [] (open_tx w1))
               (emit (Query client "BEGIN" []) w1)).
  assert (Hto : runQuery engine text params w2
                = (Throw (PoolTimeout "timeout exceeded when trying to connect"), w2)).
  { unfold runQuery, bind.
    rewrite (pool_connect_exhausted w2) by assumption. reflexivity. }
  rewrite Hto; cbv beta iota.
  rewrite client_query_rollback by (cbn; rewrite Hf1; reflexivity).
  cbv beta iota. cbn.
  split; [reflexivity|]. split; [|exact Hcm].
  rewrite <- !app_assoc, statements_app. reflexivity.
Qed.

(** The same on a pool of size one. *)
Lemma transaction_needs_second_client_witness :
  let w := mkWorld (mkPool [] 0 1) ([] : TestDb.store) [] [] [] in
  let run := transaction TestDb.engine (defaultPgDao TestDb.engine)
               (fun dao => runQuery_method dao "SELECT 1" []) w in
  fst run = Throw (PoolTimeout "timeout exceeded when trying to connect")
  /\ statements (trace (snd run)) = [(0, "BEGIN", []); (0, "ROLLBACK", [])].
Proof.
  intros w run.
  assert (Hfull : max (pool (emit (Connect 0)
                    (emit (ConsoleLog [AStr "New client connected to PostgreSQL database"])
                       (set_pool (mkPool [] 1 1) w))))
                  <= 1) by (simpl; lia).
  destruct (transaction_needs_second_client TestDb.engine "SELECT 1" [] w _ 0
              eq_refl eq_refl Hfull eq_refl) as (Hr & Hs & _).
  split; [exact Hr | exact Hs].
Defined.

(* ===================================================================== *)
(** ** The update batch *)
(* ===================================================================== *)

Section BatchFacts.

Context {store : Type}.

Lemma multiUpdate_loop_app (this : PostgresDAO (store := store)) (tableName : string)
      (xs ys : list updateItem) (returning : option (list string))
      (results : list object) (w : World store) :
  multiUpdate_loop this tableName (xs ++ ys) returning results w
  = bind (multiUpdate_loop this tableName xs returning results)
         (fun done => multiUpdate_loop this tableName ys returning done) w.
Proof.
  revert results w.
  induction xs as [|item xs IH]; intros results w; [reflexivity|].
  cbn [app multiUpdate_loop]. unfold bind.
  destruct (updateRows this tableName (item_data item) (item_where item) returning w)
    as [[updatedRows|e] w1]; [|reflexivity].
  rewrite IH. reflexivity.
Qed.


End BatchFacts.

(** X9. [multiUpdate] stops at the first update that throws: the items
    after it are never attempted, ROLLBACK is sent on the batch's client, the
    client is released, and the caller gets that update's error (or
    ROLLBACK's error if that fails too).  Nothing is logged by
    [multiUpdate] itself. *)
Theorem multiUpdate_stops_at_first_failure {store : Type}
        (engine : string -> list value -> store -> completion QueryResult * store)
        (this : PostgresDAO) (tableName : string)
        (before : list updateItem) (item : updateItem) (after : list updateItem)
        (returning : option (list string))
        (w w1 w2 w3 w4 : World store) (client : nat) (begun : QueryResult)
        (done : list object) (error : exn) :
  pool_connect w = (Return client, w1) ->
  client_query engine client "BEGIN" [] w1 = (Return begun, w2) ->
  multiUpdate_loop this tableName before returning [] w2 = (Return done, w3) ->
  updateRows this tableName (item_data item) (item_where item) returning w3
  = (Throw error, w4) ->
  multiUpdate engine this tableName (before ++ item :: after) returning w
  = match client_query engine client "ROLLBACK" [] w4 with
    | (Return _, w5) => (Throw error, snd (client_release client w5))
    | (Throw rollbackError, w5) =>
        (Throw rollbackError, snd (client_release client w5))
    end.
Proof.
  intros Hc Hb Hloop Hitem.
  assert (Hne : (length (before ++ item :: after) =? 0) = false).
  { rewrite length_app. cbn [length]. apply Nat.eqb_neq. lia. }
  unfold multiUpdate. rewrite Hne.
  unfold try_finally, try_catch. unfold bind at 1. rewrite Hc. cbv beta iota.
  unfold bind at 1. rewrite Hb. cbv beta iota.
  unfold bind at 1. rewrite multiUpdate_loop_app.
  unfold bind at 1. rewrite Hloop. cbv beta iota.
  cbn [multiUpdate_loop]. unfold bind at 1. rewrite Hitem. cbv beta iota.
  unfold bind.
  destruct (client_query engine client "ROLLBACK" [] w4) as [[r|e'] w5];
    reflexivity.
Qed.

(** The same at a batch of three whose second update binds [null]. *)
Lemma multiUpdate_stops_at_first_failure_witness :
  let third := mkItem [("a", VNum 3)] (Some [("id", VNum 3)]) in
  let run := multiUpdate TestDb.engine (defaultPgDao TestDb.engine) "t"
               ([mkItem [("a", VNum 1)] (Some [("id", VNum 1)])]
                  ++ mkItem [("a", VNull)] (Some [("id", VNum 2)]) :: [third])
               None TestDb.fresh in
  fst run = Throw (DriverError "null value violates not-null constraint")
  /\ map (fun s => snd s) (statements (trace (snd run)))
     = [[]; [VNum 1; VNum 1]; [VNull; VNum 2]; []].
Proof.
  intros third run. subst run.
  erewrite (multiUpdate_stops_at_first_failure TestDb.engine
              (defaultPgDao TestDb.engine) "t"
              [mkItem [("a", VNum 1)] (Some [("id", VNum 1)])]
              (mkItem [("a", VNull)] (Some [("id", VNum 2)])) [third] None
              TestDb.fresh);
    [|vm_compute; reflexivity ..].
  split; vm_compute; reflexivity.
Defined.


(* ===================================================================== *)
(** ** More on the generated statements *)
(* ===================================================================== *)

Section ColumnFacts.



End ColumnFacts.



(** X12. Unlike [deleteRows], [updateRows] accepts an empty or absent
    [where]: it always builds a statement, and then the text is
    [UPDATE <table> SET k1 = $1, k2 = $2, ... RETURNING <columns>] with no
    WHERE clause (every row of the table is updated) and the parameters are
    exactly the values of [data]. *)
Theorem updateRows_without_where (tableName : string) (data : object)
        (returning : list string) :
  updateRows_build tableName data None returning
  = updateRows_build tableName data (Some []) returning
  /\ render (fst (updateRows_build tableName data (Some []) returning))
     = ("UPDATE " ++ tableName ++ " SET "
          ++ String.concat ", "
               (map (fun ki => fst ki ++ " = $" ++ nat_to_string (snd ki))
                    (combine (Object_keys data) (seq 1 (length data))))
          ++ " RETURNING " ++ join_names ", " returning)%string
  /\ snd (updateRows_build tableName data (Some []) returning) = Object_values data.
Proof.
  split; [reflexivity|].
  rewrite updateRows_build_shape. cbn [fst snd default where_clause app map Object_keys].
  split; [|apply app_nil_r].
  cbn [render render_frag]. unfold returning_clause.
  rewrite render_app, render_join, render_equalities, length_keys.
  cbn [render render_frag]. rewrite string_app_nil_r.
  now rewrite !string_app_assoc.
Qed.

(** X13. The table name is spliced into the statement text as it is and
    is never a bound parameter: for [getAllRows], [insertRow] and
    [updateRows] the text is a prefix and a suffix that do not depend on
    the table name, with the name between them, and the parameters do not
    depend on the name at all. *)
Theorem tableName_is_interpolated :
  (forall opts : options,
      exists prefix suffix, forall tableName,
          render (fst (getAllRows_build tableName opts))
          = (prefix ++ tableName ++ suffix)%string
          /\ snd (getAllRows_build tableName opts) = snd (getAllRows_build "" opts))
  /\ (forall (data : object) (returning : list string),
         exists prefix suffix, forall tableName,
           render (fst (insertRow_build tableName data returning))
           = (prefix ++ tableName ++ suffix)%string
           /\ snd (insertRow_build tableName data returning)
              = snd (insertRow_build "" data returning))
  /\ (forall (data : object) (w : option object) (returning : list string),
         exists prefix suffix, forall tableName,
           render (fst (updateRows_build tableName data w returning))
           = (prefix ++ tableName ++ suffix)%string
           /\ snd (updateRows_build tableName data w returning)
              = snd (updateRows_build "" data w returning)).
Proof.
  split; [|split].
  - intros opts.
    exists ("SELECT " ++ join_names ", " (default ["*"] (select opts)) ++ " FROM ")%string.
    exists (render (where_clause (default [] (where_ opts)) 1
                      ++ paging opts (1 + length (default [] (where_ opts))))).
    intros tableName. rewrite !getAllRows_build_shape. cbn [fst snd].
    split; [|reflexivity].
    unfold select_from. cbn [render render_frag].
    now rewrite !string_app_assoc.
  - intros data returning.
    exists (newline ++ indent6 ++ "INSERT INTO ")%string.
    exists (" (" ++ join_names ", " (Object_keys data) ++ ")"
              ++ newline ++ indent6 ++ "VALUES ("
              ++ render ((join ", " (holes (Object_keys data) 1)
                            ++ [insert_tail returning ")"])%list))%string.
    intros tableName. rewrite !insertRow_build_shape. cbn [fst snd].
    split; [|reflexivity].
    unfold insert_head. cbn [render render_frag].
    now rewrite !string_app_assoc.
  - intros data w returning.
    exists "UPDATE ".
    exists (" SET " ++ render ((join ", " (equalities (Object_keys data) 1)
                                  ++ where_clause (default [] w) (1 + length data)
                                  ++ returning_clause returning)%list))%string.
    intros tableName. rewrite !updateRows_build_shape. cbn [fst snd].
    split; [|reflexivity].
    cbn [render render_frag].
    now rewrite !string_app_assoc.
Qed.

(* ===================================================================== *)
(** ** Start-up and introspection *)
(* ===================================================================== *)

Example split_space_version :
  split_space "PostgreSQL 15.3 on x86_64" = ["PostgreSQL"; "15.3"; "on"; "x86_64"]
  /\ split_space "" = [""]
  /\ split_space "a  b" = ["a"; ""; "b"].
Proof. split; [|split]; vm_compute; reflexivity. Qed.

(** X14. When the pool hands out a client and the test query returns a
    row whose [version] is a string, [initialize] returns [true], sets
    [isConnected], logs its three lines after the statement and gives the
    client back to the pool. *)
Theorem initialize_success {store : Type}
        (engine : string -> list value -> store -> completion QueryResult * store)
        (this : Instance) (w1 w2 : World store) (client : nat)
        (result : QueryResult) (row : object) (version : string) :
  pool_connect (world this) = (Return client, w1) ->
  client_query engine client initialize_text [] w1 = (Return result, w2) ->
  index (rows result) 0 = Row row ->
  get row "version" = VStr version ->
  let after := snd (initialize engine this) in
  fst (initialize engine this) = inr true
  /\ isConnected after = true
  /\ pool (world after)
     = mkPool (client :: idle (pool w1)) (totalCount (pool w1)) (max (pool w1))
  /\ trace (world after)
     = trace w1
         ++ [Query client initialize_text [];
             ConsoleLog [AStr "✅ Database connected successfully"];
             ConsoleLog [AStr ("📅 Server time: " ++ to_string (get row "current_time"))];
             ConsoleLog [AStr ("🗄️  PostgreSQL version: "
                                 ++ element (split_space version) 0 ++ " "
                                 ++ element (split_space version) 1)];
             Release client].
Proof.
  intros Hc Hq Hrow Hver after. subst after.
  pose proof (client_query_pool engine client initialize_text [] w1) as Hp.
  pose proof (client_query_trace engine client initialize_text [] w1) as Ht.
  rewrite Hq in Hp, Ht. cbn [snd] in Hp, Ht.
  unfold initialize, initialize_try.
  rewrite Hc, Hq, Hrow, Hver. cbn.
  rewrite Hp, Ht, <- !app_assoc. auto.
Qed.

(** The same on the test database answering with one row. *)
Lemma initialize_success_witness :
  let row := [("current_time", VStr "2025-01-01"); ("version", VStr "PostgreSQL 15.3 on x86_64")] in
  let run := initialize (TestDb.answering [row]) (mkInstance false TestDb.fresh) in
  fst run = inr true
  /\ isConnected (snd run) = true
  /\ pool (world (snd run)) = mkPool [0] 1 20.
Proof.
  intros row run. subst run.
  destruct (initialize_success (TestDb.answering [row]) (mkInstance false TestDb.fresh)
              _ _ 0 _ row "PostgreSQL 15.3 on x86_64" eq_refl eq_refl eq_refl eq_refl)
    as (Hr & Hflag & Hpool & _).
  split; [exact Hr|]. split; [exact Hflag | exact Hpool].
Defined.

(** X15. When [initialize] fails after the pool has handed out its
    client (the test query throws, or its result cannot be read), the error
    is logged and re-thrown and [isConnected] is cleared, but the client is
    never released: it stays checked out of the pool. *)
Theorem initialize_failure_keeps_client {store : Type}
        (engine : string -> list value -> store -> completion QueryResult * store)
        (this : Instance) (w1 : World store) (client : nat) (error : thrown) :
  pool_wf (pool (world this)) ->
  pool_connect (world this) = (Return client, w1) ->
  fst (initialize engine this) = inl error ->
  let after := snd (initialize engine this) in
  isConnected after = false
  /\ pool (world after) = pool w1
  /\ ~ In client (idle (pool (world after)))
  /\ exists logged,
      trace (world after)
      = trace w1 ++ Query client initialize_text [] :: logged
          ++ [ConsoleError [AStr "❌ Database connection failed:";
                            AStr (thrown_message error)]]
      /\ ~ In (Release client) logged.
Proof.
  intros Hwf Hc Hfail after. subst after.
  pose proof (pool_connect_pool (world this) w1 client Hwf Hc) as (_ & Hnotin & _).
  pose proof (client_query_pool engine client initialize_text [] w1) as Hp.
  pose proof (client_query_trace engine client initialize_text [] w1) as Ht.
  revert Hfail. unfold initialize, initialize_try. rewrite Hc.
  destruct (client_query engine client initialize_text [] w1) as [[result|e] w2];
    cbn [snd] in Hp, Ht.
  - destruct (index (rows result) 0) as [row| |].
    + destruct (get row "version") as [| |b|n|version]; cbn; intros Hfail;
        try discriminate Hfail; inversion Hfail; subst;
          rewrite Hp, Ht, <- !app_assoc; cbn;
            (split; [reflexivity|]); (split; [reflexivity|]);
              (split; [assumption|]);
              exists [ConsoleLog [AStr "✅ Database connected successfully"];
                      ConsoleLog [AStr ("📅 Server time: "
                                          ++ to_string (get row "current_time"))]];
                (split; [reflexivity|]); cbn; intuition discriminate.
    + cbn. intros Hfail. inversion Hfail; subst.
      rewrite Hp, Ht, <- !app_assoc. cbn.
      split; [reflexivity|]. split; [reflexivity|]. split; [assumption|].
      exists [ConsoleLog [AStr "✅ Database connected successfully"]].
      split; [reflexivity|]. cbn. intuition discriminate.
    + cbn. intros Hfail. inversion Hfail; subst.
      rewrite Hp, Ht, <- !app_assoc. cbn.
      split; [reflexivity|]. split; [reflexivity|]. split; [assumption|].
      exists [ConsoleLog [AStr "✅ Database connected successfully"]].
      split; [reflexivity|]. cbn. intuition discriminate.
  - cbn. intros Hfail. inversion Hfail; subst.
    rewrite Hp, Ht, <- !app_assoc. cbn.
    split; [reflexivity|]. split; [reflexivity|]. split; [assumption|].
    exists []. split; [reflexivity|]. intros [].
Qed.

(** The same on a connection that fails the test query. *)
Lemma initialize_failure_keeps_client_witness :
  let this := mkInstance true (TestDb.faulty [(initialize_text, "connection refused")]) in
  let after := snd (initialize TestDb.engine this) in
  isConnected after = false
  /\ pool (world after) = mkPool [] 1 20
  /\ statements (trace (world after)) = [(0, initialize_text, [])].
Proof.
  intros this after. subst after.
  assert (Hwf : pool_wf (pool (world this))) by (split; constructor).
  destruct (initialize_failure_keeps_client TestDb.engine this _ 0
              (Raised (DriverError "connection refused")) Hwf eq_refl eq_refl)
    as (Hflag & Hpool & _ & _).
  split; [exact Hflag|]. split; [exact Hpool|]. vm_compute. reflexivity.
Defined.



(* ===================================================================== *)
(** ** The chat-completion client *)
(* ===================================================================== *)

Section AiFacts.

Lemma or_else_nonempty (s : option string) (d : string) :
  d <> "" -> Ai.or_else s d <> "".
Proof.
  intros Hd. unfold Ai.or_else.
  destruct s as [x|]; [|exact Hd].
  destruct (String.eqb_spec x ""); assumption.
Qed.

Lemma concat_empty_sep_cons (x : string) (l : list string) :
  String.concat "" (x :: l) = (x ++ String.concat "" l)%string.
Proof.
  destruct l as [|y l]; cbn [String.concat].
  - now rewrite string_app_nil_r.
  - reflexivity.
Qed.

Lemma concat_empty_sep_app (a b : list string) :
  String.concat "" (a ++ b) = (String.concat "" a ++ String.concat "" b)%string.
Proof.
  induction a as [|x a IH]; [reflexivity|].
  change ((x :: a) ++ b) with (x :: (a ++ b)).
  rewrite !concat_empty_sep_cons, IH. now rewrite string_app_assoc.
Qed.

Lemma stream_loop_spec (onChunk : bool) (stream : list Ai.chunk)
      (fullContent : string) (calls : list Ai.call) :
  let done := Ai.stream_loop onChunk stream fullContent calls in
  fst done = (fullContent ++ String.concat "" (Ai.pieces stream))%string
  /\ (if onChunk
      then exists added,
          snd done = calls ++ added
          /\ map (fun c => fst (fst c)) added = Ai.pieces stream
          /\ map (fun c => snd (fst c)) added
             = Ai.running fullContent (Ai.pieces stream)
      else snd done = calls).
Proof.
  revert fullContent calls.
  induction stream as [|c rest IH]; intros fullContent calls.
  - cbn. split; [now rewrite string_app_nil_r|].
    destruct onChunk; [|reflexivity].
    exists []. now rewrite app_nil_r.
  - unfold Ai.pieces in *. cbn [Ai.stream_loop map filter].
    destruct (negb (String.eqb (Ai.chunk_content c) "")) eqn:Hne.
    + specialize (IH (fullContent ++ Ai.chunk_content c)%string
                     (if onChunk
                      then calls ++ [(Ai.chunk_content c,
                                      (fullContent ++ Ai.chunk_content c)%string, c)]
                      else calls)).
      cbv zeta in IH |- *. destruct IH as [Hfull Hcalls]. split.
      * rewrite Hfull, concat_empty_sep_cons.
        now rewrite string_app_assoc.
      * destruct onChunk; [|exact Hcalls].
        destruct Hcalls as (added & Hsnd & Hcontent & Hrun).
        exists ((Ai.chunk_content c,
                 (fullContent ++ Ai.chunk_content c)%string, c) :: added).
        rewrite Hsnd, <- app_assoc. cbn [app map fst snd Ai.running].
        rewrite Hcontent, Hrun. auto.
    + apply IH.
Qed.

Lemma running_nth (contents : list string) (fullContent : string) (i : nat) :
  i < length contents ->
  nth_error (Ai.running fullContent contents) i
  = Some (fullContent ++ String.concat "" (firstn (S i) contents))%string.
Proof.
  revert fullContent i.
  induction contents as [|c rest IH]; intros fullContent i Hlt;
    [simpl in Hlt; lia|].
  destruct i as [|i].
  - cbn [Ai.running nth_error firstn]. destruct rest; reflexivity.
  - cbn [Ai.running nth_error]. rewrite IH by (simpl in Hlt; lia).
    f_equal. rewrite string_app_assoc. f_equal.
    change (firstn (S (S i)) (c :: rest)) with (c :: firstn (S i) rest).
    now rewrite concat_empty_sep_cons.
Qed.

End AiFacts.

(** X17. [_handleError] turns an error that carries API response data
    into a fresh error whose message is ["OpenAI API Error: "] followed by
    the API's message, or by ["Unknown error"] when that is missing or empty
    (so never by nothing), and returns every other error as it is; the
    result carries no response data, so handling twice is handling once. *)
Theorem handleError_idempotent (e : Ai.error) :
  Ai._handleError (Ai._handleError e) = Ai._handleError e
  /\ Ai.response_data (Ai._handleError e) = None
  /\ match Ai.response_data e with
     | None => Ai._handleError e = e
     | Some data_message =>
         exists detail,
           Ai.message (Ai._handleError e) = ("OpenAI API Error: " ++ detail)%string
           /\ detail <> ""
           /\ (forall m, data_message = Some m -> m <> "" -> detail = m)
           /\ (data_message = None \/ data_message = Some "" ->
               detail = "Unknown error")
     end.
Proof.
  unfold Ai._handleError.
  destruct (Ai.response_data e) as [data_message|] eqn:Hdata.
  - cbn [Ai.response_data Ai.message]. split; [reflexivity|]. split; [reflexivity|].
    exists (Ai.or_else data_message "Unknown error").
    split; [reflexivity|]. split; [apply or_else_nonempty; discriminate|].
    split.
    + intros m -> Hm. cbn. destruct (String.eqb_spec m ""); [contradiction|reflexivity].
    + intros [->| ->]; reflexivity.
  - rewrite Hdata. auto.
Qed.

(** X18. [chatCompletion] calls the API only with a non-empty array of
    messages: otherwise no request is made and its own error is logged and
    thrown.  The one request it makes carries the messages unchanged, the
    given model or ["gpt-5-nano"] when none (or an empty one) is given, and
    [max_completion_tokens] only for a non-zero [maxTokens]; the response is
    returned as it is, and an API error is logged and thrown through
    [_handleError]. *)
Theorem chatCompletion_request {response : Type}
        (total_tokens : response -> option nat)
        (create : Ai.request -> Ai.error + response)
        (messages : option (list Ai.chat_message)) (options : Ai.chat_options) :
  let run := Ai.chatCompletion total_tokens create messages options in
  let required := Ai.mkError "Messages array is required and cannot be empty" None in
  match messages with
  | None | Some [] =>
      run = ([Ai.LogError "❌ Chat Completion Error:" (Ai.message required)],
             inl required)
  | Some (m :: ms) =>
      exists r,
        Ai.req_messages r = m :: ms
        /\ Ai.req_model r = Ai.or_else (Ai.model options) "gpt-5-nano"
        /\ Ai.req_model r <> ""
        /\ Ai.max_completion_tokens r
           = match Ai.maxTokens options with
             | Some 0 | None => None
             | Some n => Some n
             end
        /\ match create r with
           | inr done =>
               run = ([Ai.Create r;
                       Ai.Log ("✅ Chat Completion Success - Tokens used: "
                                 ++ Ai.tokens_used total_tokens done)],
                      inr done)
           | inl e =>
               run = ([Ai.Create r;
                       Ai.LogError "❌ Chat Completion Error:" (Ai.message e)],
                      inl (Ai._handleError e))
           end
  end.
Proof.
  intros run required. subst run required.
  unfold Ai.chatCompletion, Ai.chatCompletion_try.
  destruct messages as [[|m ms]|]; try reflexivity.
  exists (Ai.mkRequest (Ai.or_else (Ai.model options) "gpt-5-nano") (m :: ms)
            (match Ai.maxTokens options with
             | Some n => if n =? 0 then None else Some n
             | None => None
             end)).
  split; [reflexivity|]. split; [reflexivity|].
  split; [apply or_else_nonempty; discriminate|]. split.
  - cbn [Ai.max_completion_tokens].
    destruct (Ai.maxTokens options) as [[|n]|]; reflexivity.
  - match goal with |- context [create ?r] => destruct (create r) end; reflexivity.
Qed.

(** X19. The greeting route answers either 200 with the API's response or
    500 with the fixed body [internal server error], whatever went wrong.
    With a default client, exactly one request is made first: model
    ["gpt-5-nano"], the system message and the user message
    [Generate a greeting message for <name>.], with [World] for a missing or
    empty name; with no default client no request is made. *)
Theorem greeting_route_replies {response : Type}
        (total_tokens : response -> option nat)
        (create : Ai.request -> Ai.error + response)
        (defaultOpenAIClient : bool) (name : option string) :
  let run := Ai.greeting_route total_tokens create defaultOpenAIClient name in
  let asked :=
    Ai.mkRequest "gpt-5-nano"
      [Ai.mkMessage "system" "You are a friendly assistant that provides greetings.";
       Ai.mkMessage "user"
         ("Generate a greeting message for "
            ++ match name with
               | Some "" | None => "World"
               | Some given => given
               end ++ ".")]
      None in
  (snd run = Ai.JsonError 500 "internal server error"
   \/ exists greeting,
       snd run = Ai.Json 200 greeting
       /\ defaultOpenAIClient = true /\ create asked = inr greeting)
  /\ if defaultOpenAIClient
     then exists logged,
         fst run = Ai.Create asked :: logged
         /\ forall r, ~ In (Ai.Create r) logged
     else forall r, ~ In (Ai.Create r) (fst run).
Proof.
  intros run asked.
  assert (Hname : Ai.or_else name "World"
                  = match name with
                    | Some "" | None => "World"
                    | Some given => given
                    end).
  { destruct name as [[|c s]|]; reflexivity. }
  subst run asked.
  unfold Ai.greeting_route, Ai.getGreeting, Ai.chatCompletion, Ai.chatCompletion_try.
  rewrite Hname. cbn [Ai.or_else Ai.model Ai.maxTokens String.eqb Ascii.eqb Bool.eqb].
  destruct defaultOpenAIClient.
  - match goal with |- context [create ?r] => destruct (create r) as [e|greeting] eqn:Hc end.
    + cbn. split; [now left|].
      eexists. split; [reflexivity|].
      intros r [Hin|[Hin|[]]]; discriminate Hin.
    + cbn. split; [right; exists greeting; auto|].
      eexists. split; [reflexivity|].
      intros r [Hin|[]]; discriminate Hin.
  - cbn. split; [now left|].
    intros r [Hin|[]]; discriminate Hin.
Qed.

(** X20. [streamChatCompletion] on a stream that runs to its end returns
    the concatenation of the non-empty chunk contents in order.  A given
    [onChunk] is called once per non-empty content, in order, with that
    content and with the text accumulated so far (the concatenation of the
    contents up to and including it); without [onChunk] nothing is called.
    When the API call fails its error is thrown through [_handleError] and
    nothing is called. *)
Theorem streamChatCompletion_accumulates
        (create_stream : Ai.stream_options -> Ai.error + list Ai.chunk)
        (options : Ai.stream_options) (onChunk : bool) :
  let run := Ai.streamChatCompletion create_stream options onChunk in
  match create_stream options with
  | inl e => snd run = inl (Ai._handleError e) /\ snd (fst run) = []
  | inr stream =>
      let contents := Ai.pieces stream in
      snd run = inr (String.concat "" contents)
      /\ (if onChunk
          then map (fun c => fst (fst c)) (snd (fst run)) = contents
               /\ length (snd (fst run)) = length contents
               /\ forall i, i < length contents ->
                   nth_error (map (fun c => snd (fst c)) (snd (fst run))) i
                   = Some (String.concat "" (firstn (S i) contents))
          else snd (fst run) = [])
  end.
Proof.
  intros run. subst run. unfold Ai.streamChatCompletion.
  destruct (create_stream options) as [e|stream]; [split; reflexivity|].
  pose proof (stream_loop_spec onChunk stream "" []) as [Hfull Hcalls].
  cbv zeta in Hfull, Hcalls |- *.
  destruct (Ai.stream_loop onChunk stream "" []) as [fullContent calls].
  cbn [fst snd] in *. split; [now rewrite Hfull|].
  destruct onChunk; [|exact Hcalls].
  destruct Hcalls as (added & -> & Hcontent & Hrun). cbn [app].
  split; [exact Hcontent|]. split.
  - rewrite <- Hcontent. now rewrite length_map.
  - intros i Hlt. rewrite Hrun. now rewrite running_nth.
Qed.
